(** * caproto/ioc_examples/complete_mirror.py: the mirror bridge

    A shallow embedding of the mirror IOC: the resolver and builder
    ([make_pvproperty]), the subscription bridge ([_callback], the
    [startup] hook), the write bridge (the [putter] hook) and the
    registry ([make_mirror]).  Python's effects are threaded through a
    state-and-exception monad over a [World] that holds the module
    globals ([internal_process], [csc.sockets], [csc.global_circuits]),
    the [MirrorFrame] instance attributes and the local PV store. *)

From Stdlib Require Import ZArith String List.
From stdpp Require Import base gmap strings list.

Open Scope Z_scope.

(** ** Values, exceptions, results *)

(** A Python value as it travels through the bridge: a scalar integer, a
    text string, or an array of raw elements. *)
Inductive pyval :=
| PInt (n : Z)
| PStr (s : string)
| PArr (xs : list Z).

Inductive exn :=
| SkipWrite
| KeyError (key : string)
| ValueError
| ConnectError
| ReadError
| WriteError
| TimeoutError
| DecodeError.

Inductive res (A : Type) :=
| Ok (a : A)
| Raise (e : exn).
Arguments Ok {A} a.
Arguments Raise {A} e.

#[global] Instance pyval_eq_dec : EqDecision pyval.
Proof. solve_decision. Defined.
#[global] Instance exn_eq_dec : EqDecision exn.
Proof. solve_decision. Defined.

(** ** The protocol objects the bridge handles *)

(** [AccessRights] is an [IntFlag]: READ = 1, WRITE = 2. *)
Definition AccessRights_READ : Z := 1.
Definition AccessRights_WRITE : Z := 2.

(** [flag in rights] on an [IntFlag]: every bit of [flag] is in [rights]. *)
Definition flag_in (flag rights : Z) : bool := Z.land rights flag =? flag.

Definition Address : Type := string * Z.

Inductive ChannelState := CONNECTED | MUST_CLOSE | DISCONNECTED.

#[global] Instance ChannelState_eq_dec : EqDecision ChannelState.
Proof. solve_decision. Defined.

(** A client channel after [make_channel_from_address]: the fields the
    bridge reads.  [native_data_type] is the integer code of the
    [ChannelType] member; the mutable [chan.states[CLIENT]] lives in the
    world under [chan_id]. *)
Record Channel := mkChannel {
  chan_id : nat;
  chan_name : string;
  chan_circuit : nat;
  native_data_type : Z;
  native_data_count : nat;
  access_rights : Z;
  string_encoding : string
}.

Record Metadata := mkMetadata {
  md_timestamp : Z;
  md_enum_strings : option (list (list Byte.byte))
}.

Record Response := mkResponse {
  resp_data : pyval;
  resp_metadata : Metadata
}.

(** The [pvproperty] made for one mirrored PV, with the variables its
    hooks close over ([pv_str] and [chan]). *)
Record PvProperty := mkPvProperty {
  prop_value : pyval;
  prop_dtype : Z;
  prop_max_length : nat;
  prop_read_only : bool;
  prop_enum_strings : option (list string);
  prop_pv_str : string;
  prop_chan : Channel
}.

Record PV := mkPV { pv_name : string }.

Record Subscription := mkSubscription {
  sub_pv : PV;
  sub_data_type : string;
  sub_callbacks : list PvProperty
}.

Inductive Command :=
| ClearChannelRequest (name : string) (cid : nat).

(** ** What the remote server and the libraries do *)

Inductive ConnectOutcome :=
| Unreachable
| NoSuchPV
| Created (dtype : Z) (count : nat) (rights : Z).

Inductive ReadOutcome :=
| ReadOk (resp : Response)
| ReadFails
| ReadDrops.

Inductive WriteOutcome :=
| WriteAck
| WriteTimesOut
| WriteRejected.

(** The remote server, as an oracle: how it answers a channel creation,
    the resolver's read, and a write (given the writes it has already
    received). *)
Record Remote := mkRemote {
  remote_connect : string → Address → ConnectOutcome;
  remote_read : string → Z → ReadOutcome;
  remote_write : list (string * pyval * Z) → string → pyval → WriteOutcome
}.

(** The constants and helpers of the caproto package and of Python that
    the file uses: [ca.enum_types], [ca.field_types["control"]],
    [bytes.decode], and the checks the serving runtime runs on a value
    before it reaches the putter (they may reject it). *)
Record Library := mkLibrary {
  enum_types : list Z;
  field_types_control : Z → Z;
  bytes_decode : string → list Byte.byte → option string;
  preprocess_value : PvProperty → pyval → option exn
}.

(** ** The world *)

Record World := mkWorld {
  (* contextvars: the value of [internal_process] in each context *)
  internal_process : gmap nat bool;
  (* caproto.sync.client *)
  csc_sockets : gmap nat nat;
  csc_global_circuits : gmap (Address * Z) nat;
  open_sockets : gset nat;
  chan_states : gmap nat ChannelState;
  sent : list (nat * Command);
  next_id : nat;
  (* the MirrorFrame instance *)
  frame_pvs : gmap string PV;
  frame_callbacks : list PvProperty;
  frame_subs : list Subscription;
  (* the served PVs: value and timestamp of each *)
  store : gmap string (pyval * Z);
  (* what the remote PVs were asked to write: pv, value, timeout *)
  remote_writes : list (string * pyval * Z);
  (* time.time() *)
  clock : Z
}.

Definition set_internal_process (f : gmap nat bool → gmap nat bool) (w : World) : World :=
  mkWorld (f (internal_process w)) (csc_sockets w) (csc_global_circuits w)
    (open_sockets w) (chan_states w) (sent w) (next_id w) (frame_pvs w)
    (frame_callbacks w) (frame_subs w) (store w) (remote_writes w) (clock w).

Definition set_csc_sockets (f : gmap nat nat → gmap nat nat) (w : World) : World :=
  mkWorld (internal_process w) (f (csc_sockets w)) (csc_global_circuits w)
    (open_sockets w) (chan_states w) (sent w) (next_id w) (frame_pvs w)
    (frame_callbacks w) (frame_subs w) (store w) (remote_writes w) (clock w).

Definition set_csc_global_circuits
    (f : gmap (Address * Z) nat → gmap (Address * Z) nat) (w : World) : World :=
  mkWorld (internal_process w) (csc_sockets w) (f (csc_global_circuits w))
    (open_sockets w) (chan_states w) (sent w) (next_id w) (frame_pvs w)
    (frame_callbacks w) (frame_subs w) (store w) (remote_writes w) (clock w).

Definition set_open_sockets (f : gset nat → gset nat) (w : World) : World :=
  mkWorld (internal_process w) (csc_sockets w) (csc_global_circuits w)
    (f (open_sockets w)) (chan_states w) (sent w) (next_id w) (frame_pvs w)
    (frame_callbacks w) (frame_subs w) (store w) (remote_writes w) (clock w).

Definition set_chan_states
    (f : gmap nat ChannelState → gmap nat ChannelState) (w : World) : World :=
  mkWorld (internal_process w) (csc_sockets w) (csc_global_circuits w)
    (open_sockets w) (f (chan_states w)) (sent w) (next_id w) (frame_pvs w)
    (frame_callbacks w) (frame_subs w) (store w) (remote_writes w) (clock w).

Definition set_sent (f : list (nat * Command) → list (nat * Command)) (w : World) : World :=
  mkWorld (internal_process w) (csc_sockets w) (csc_global_circuits w)
    (open_sockets w) (chan_states w) (f (sent w)) (next_id w) (frame_pvs w)
    (frame_callbacks w) (frame_subs w) (store w) (remote_writes w) (clock w).

Definition set_next_id (f : nat → nat) (w : World) : World :=
  mkWorld (internal_process w) (csc_sockets w) (csc_global_circuits w)
    (open_sockets w) (chan_states w) (sent w) (f (next_id w)) (frame_pvs w)
    (frame_callbacks w) (frame_subs w) (store w) (remote_writes w) (clock w).

Definition set_frame_pvs (f : gmap string PV → gmap string PV) (w : World) : World :=
  mkWorld (internal_process w) (csc_sockets w) (csc_global_circuits w)
    (open_sockets w) (chan_states w) (sent w) (next_id w) (f (frame_pvs w))
    (frame_callbacks w) (frame_subs w) (store w) (remote_writes w) (clock w).

Definition set_frame_callbacks (f : list PvProperty → list PvProperty) (w : World) : World :=
  mkWorld (internal_process w) (csc_sockets w) (csc_global_circuits w)
    (open_sockets w) (chan_states w) (sent w) (next_id w) (frame_pvs w)
    (f (frame_callbacks w)) (frame_subs w) (store w) (remote_writes w) (clock w).

Definition set_frame_subs (f : list Subscription → list Subscription) (w : World) : World :=
  mkWorld (internal_process w) (csc_sockets w) (csc_global_circuits w)
    (open_sockets w) (chan_states w) (sent w) (next_id w) (frame_pvs w)
    (frame_callbacks w) (f (frame_subs w)) (store w) (remote_writes w) (clock w).

Definition set_store
    (f : gmap string (pyval * Z) → gmap string (pyval * Z)) (w : World) : World :=
  mkWorld (internal_process w) (csc_sockets w) (csc_global_circuits w)
    (open_sockets w) (chan_states w) (sent w) (next_id w) (frame_pvs w)
    (frame_callbacks w) (frame_subs w) (f (store w)) (remote_writes w) (clock w).

Definition set_remote_writes
    (f : list (string * pyval * Z) → list (string * pyval * Z)) (w : World) : World :=
  mkWorld (internal_process w) (csc_sockets w) (csc_global_circuits w)
    (open_sockets w) (chan_states w) (sent w) (next_id w) (frame_pvs w)
    (frame_callbacks w) (frame_subs w) (store w) (f (remote_writes w)) (clock w).

(** ** The monad: state and exceptions *)

Definition M (A : Type) : Type := World → res A * World.

Definition ret {A} (a : A) : M A := λ w, (Ok a, w).

Definition raise {A} (e : exn) : M A := λ w, (Raise e, w).

Definition bind {A B} (m : M A) (k : A → M B) : M B :=
  λ w, match m w with
       | (Ok a, w1) => k a w1
       | (Raise e, w1) => (Raise e, w1)
       end.

(** [try: body finally: fin].  The clean-up runs on every exit of the
    body; an exception of the clean-up replaces the body's outcome. *)
Definition try_finally {A} (body : M A) (fin : M unit) : M A :=
  λ w, match body w with
       | (r, w1) =>
           match fin w1 with
           | (Ok _, w2) => (r, w2)
           | (Raise e, w2) => (Raise e, w2)
           end
       end.

Definition modify (f : World → World) : M unit := λ w, (Ok tt, f w).

Definition gets {A} (f : World → A) : M A := λ w, (Ok (f w), w).

Notation "x <~ m ;; k" := (bind m (λ x, k))
  (at level 100, m at next level, right associativity).
Notation "m ;;; k" := (bind m (λ _, k))
  (at level 100, right associativity).

(** ** The bridge *)

Section Bridge.

Variable lib : Library.
Variable rem : Remote.

(** *** The feedback guard: [internal_process], a [ContextVar] with
    default [False].  [ctx] is the context the running code executes in. *)

Definition guard_of (ctx : nat) (w : World) : bool :=
  default false (internal_process w !! ctx).

Definition internal_process_get (ctx : nat) : M bool := gets (guard_of ctx).

Definition internal_process_set (ctx : nat) (b : bool) : M unit :=
  modify (set_internal_process <[ctx := b]>).

(** [chan.native_data_type in ca.enum_types] *)
Definition is_enum (chan : Channel) : bool :=
  bool_decide (native_data_type chan ∈ enum_types lib).

(** *** The write bridge *)

Fixpoint index_of (s : string) (labels : list string) : option nat :=
  match labels with
  | [] => None
  | l :: rest => if decide (l = s) then Some O else S <$> index_of s rest
  end.

(** Modelled from the spec: [instance.get_raw_value] of the serving
    runtime, which is not part of this file.  It converts the client's
    representation of an enumerated value (a label) to the raw integer
    code, the position of the label in the enum strings; a value that is
    no label of the PV is an error. *)
Definition get_raw_value (instance : PvProperty) (value : pyval) : M pyval :=
  match value, prop_enum_strings instance with
  | PStr s, Some labels =>
      match index_of s labels with
      | Some i => ret (PInt (Z.of_nat i))
      | None => raise ValueError
      end
  | _, _ => raise ValueError
  end.

(** The conversion step of the putter's forward branch, under a name:
    [if chan.native_data_type in ca.enum_types:
       value = instance.get_raw_value(value)]. *)
Definition to_remote (chan : Channel) (instance : PvProperty) (value : pyval) : M pyval :=
  if is_enum chan then get_raw_value instance value else ret value.

(** Modelled from the spec: [pv.write(value, timeout=...)] of the client
    library, a synchronous write that is acknowledged, times out or is
    rejected.  The call is recorded in [remote_writes]. *)
Definition pv_write (pv : PV) (value : pyval) (timeout : Z) : M unit :=
  λ w, let w1 := set_remote_writes (λ l, l ++ [(pv_name pv, value, timeout)]) w in
       match remote_write rem (remote_writes w) (pv_name pv) value with
       | WriteAck => (Ok tt, w1)
       | WriteTimesOut => (Raise TimeoutError, w1)
       | WriteRejected => (Raise WriteError, w1)
       end.

(** [self._pvs[pv_str]] *)
Definition frame_pvs_getitem (pv_str : string) : M PV :=
  λ w, match frame_pvs w !! pv_str with
       | Some pv => (Ok pv, w)
       | None => (Raise (KeyError pv_str), w)
       end.

(** The putter hook of the property made for [pv_str] and [chan]. *)
Definition putter (pv_str : string) (chan : Channel) (ctx : nat)
    (instance : PvProperty) (value : pyval) : M pyval :=
  guard <~ internal_process_get ctx ;;
  if guard : bool then ret value
  else
    pv <~ frame_pvs_getitem pv_str ;;
    value <~ to_remote chan instance value ;;
    pv_write pv value 500 ;;;
    raise SkipWrite.

(** Modelled from the spec: [instance.write(value, timestamp=...)] of the
    serving runtime, the store operation of a local PV.  It hands the
    value to the putter hook; a value the hook returns is committed with
    the given timestamp (the local clock when none is given), [SkipWrite]
    ends the operation without a commit, any other exception is the
    failure of the write. *)
Definition inst_write (ctx : nat) (inst : PvProperty) (value : pyval)
    (timestamp : option Z) : M unit :=
  λ w, match preprocess_value lib inst value with
       | Some e => (Raise e, w)
       | None =>
           match putter (prop_pv_str inst) (prop_chan inst) ctx inst value w with
           | (Ok v, w1) =>
               (Ok tt, set_store <[prop_pv_str inst := (v, default (clock w1) timestamp)]> w1)
           | (Raise SkipWrite, w1) => (Ok tt, w1)
           | (Raise e, w1) => (Raise e, w1)
           end
       end.

(** *** The subscription bridge *)

Definition _callback (ctx : nat) (inst : PvProperty) (sub : Subscription)
    (response : Response) : M unit :=
  try_finally
    (internal_process_set ctx true ;;;
     inst_write ctx inst (resp_data response)
       (Some (md_timestamp (resp_metadata response))))
    (internal_process_set ctx false).

(** Modelled from the spec: [client_context.get_pvs] of the client
    library hands out the handle of the remote PV. *)
Definition client_context_get_pvs (pv_str : string) : M PV := ret (mkPV pv_str).

(** Modelled from the spec: [pv.subscribe] of the client library makes a
    subscription of the requested kind, without callbacks yet. *)
Definition pv_subscribe (pv : PV) (data_type : string) : M Subscription :=
  ret (mkSubscription pv data_type []).

(** Modelled from the spec: [subscription.add_callback] registers the
    callback to be invoked once per inbound update. *)
Definition add_callback (subscription : Subscription) (cb : PvProperty) : Subscription :=
  mkSubscription (sub_pv subscription) (sub_data_type subscription)
    (sub_callbacks subscription ++ [cb]).

(** The startup hook.  [cb] is [partial(_callback, instance)], kept as
    the instance it is bound to. *)
Definition startup (pv_str : string) (instance : PvProperty) : M unit :=
  pv <~ client_context_get_pvs pv_str ;;
  subscription <~ pv_subscribe pv "time" ;;
  let cb := instance in
  let subscription := add_callback subscription cb in
  modify (set_frame_callbacks (λ l, l ++ [cb])) ;;;
  modify (set_frame_pvs <[pv_str := pv]>) ;;;
  modify (set_frame_subs (λ l, l ++ [subscription])).

(** *** The resolver and the builder *)

Definition fresh_id : M nat := λ w, (Ok (next_id w), set_next_id S w).

(** Modelled from the spec: [csc.make_channel_from_address] of the
    synchronous client, the transient connection of the resolver.  The
    circuit to the address is taken from [global_circuits] or entered
    there; its socket is taken from [sockets] or opened and entered
    there; then the channel is created.  It fails when the address is
    unreachable or the PV unknown; what it entered in the two caches
    stays there. *)
Definition make_channel_from_address (pv_name : string) (address : Address)
    (priority timeout : Z) : M Channel :=
  known <~ gets (λ w, csc_global_circuits w !! (address, priority)) ;;
  circuit <~ match known with
             | Some c => ret c
             | None =>
                 c <~ fresh_id ;;
                 modify (set_csc_global_circuits <[(address, priority) := c]>) ;;;
                 ret c
             end ;;
  cached <~ gets (λ w, csc_sockets w !! circuit) ;;
  match cached with
  | Some _ => ret tt
  | None =>
      match remote_connect rem pv_name address with
      | Unreachable => raise ConnectError
      | _ =>
          s <~ fresh_id ;;
          modify (set_open_sockets (λ o, {[s]} ∪ o)) ;;;
          modify (set_csc_sockets <[circuit := s]>)
      end
  end ;;;
  match remote_connect rem pv_name address with
  | Created dtype count rights =>
      cid <~ fresh_id ;;
      modify (set_chan_states <[cid := CONNECTED]>) ;;;
      ret (mkChannel cid pv_name circuit dtype count rights "latin-1")
  | _ => raise ConnectError
  end.

(** Modelled from the spec: [csc._read], one synchronous read of the
    requested metadata variant.  It fails when the read times out or is
    refused (the channel stays connected) or when the server drops the
    connection (the channel is then disconnected). *)
Definition csc_read (chan : Channel) (timeout : Z) (data_type : Z)
    (data_count : nat) : M Response :=
  match remote_read rem (chan_name chan) data_type with
  | ReadOk resp => ret resp
  | ReadFails => raise ReadError
  | ReadDrops =>
      modify (set_chan_states <[chan_id chan := DISCONNECTED]>) ;;;
      raise ReadError
  end.

(** Modelled from the spec: [csc.send] puts the command on the circuit;
    a [ClearChannelRequest] releases the channel. *)
Definition csc_send (circuit : nat) (command : Command) : M unit :=
  modify (set_sent (λ l, l ++ [(circuit, command)])) ;;;
  match command with
  | ClearChannelRequest _ cid => modify (set_chan_states <[cid := MUST_CLOSE]>)
  end.

(** [tuple(k.decode(encoding) for k in enum_strings)] *)
Fixpoint decode_all (encoding : string) (ks : list (list Byte.byte)) : M (list string) :=
  match ks with
  | [] => ret []
  | k :: rest =>
      match bytes_decode lib encoding k with
      | Some s => ss <~ decode_all encoding rest ;; ret (s :: ss)
      | None => raise DecodeError
      end
  end.

Definition make_pvproperty (pv_str : string) (addr_ver : Address * Z)
    (force_read_only : bool) : M PvProperty :=
  let '(addr, ver) := addr_ver in
  chan <~ make_channel_from_address pv_str addr 0 5 ;;
  try_finally
    (resp <~ csc_read chan 1 (field_types_control lib (native_data_type chan))
               (native_data_count chan) ;;
     extra <~ (if is_enum chan then
                 match md_enum_strings (resp_metadata resp) with
                 | Some ks =>
                     labels <~ decode_all (string_encoding chan) ks ;;
                     ret (Some labels)
                 | None => raise DecodeError
                 end
               else ret None) ;;
     ret (mkPvProperty (resp_data resp) (native_data_type chan)
            (native_data_count chan)
            (force_read_only || negb (flag_in AccessRights_WRITE (access_rights chan)))
            extra pv_str chan))
    (st <~ gets (λ w, chan_states w !! chan_id chan) ;;
     if decide (st = Some CONNECTED)
     then csc_send (chan_circuit chan) (ClearChannelRequest (chan_name chan) (chan_id chan))
     else ret tt).

(** *** The registry *)

(** An attribute of the generated class: a property, or the [config]. *)
Inductive Attr :=
| AProp (p : PvProperty)
| AConfig (config : list (string * (Address * Z))).

(** The dict comprehension of [make_mirror]: one [make_pvproperty] per
    item of the configuration, in its order. *)
Fixpoint make_properties (items : list (string * (Address * Z)))
    (force_read_only : bool) (ns : gmap string Attr) : M (gmap string Attr) :=
  match items with
  | [] => ret ns
  | (pv_str, addr_ver) :: rest =>
      p <~ make_pvproperty pv_str addr_ver force_read_only ;;
      make_properties rest force_read_only (<[pv_str := AProp p]> ns)
  end.

Definition socket_close (s : nat) : M unit :=
  modify (set_open_sockets (λ o, o ∖ {[s]})).

Fixpoint for_each {A} (xs : list A) (body : A → M unit) : M unit :=
  match xs with
  | [] => ret tt
  | x :: rest => body x ;;; for_each rest body
  end.

Definition make_mirror (config : list (string * (Address * Z)))
    (force_read_only : bool) : M (gmap string Attr) :=
  try_finally
    (ns <~ make_properties config force_read_only ∅ ;;
     ret (<["config" := AConfig config]> ns))
    (sockets <~ gets (λ w, (map_to_list (csc_sockets w)).*2) ;;
     for_each sockets socket_close ;;;
     modify (set_csc_sockets (λ _, ∅)) ;;;
     modify (set_csc_global_circuits (λ _, ∅))).

(** *** Tasks of the event loop

    The serving runtime and the client library run on one event loop;
    every task of the loop executes in a context of its own, so task
    number [i] below runs in context [i].  A task that executes
    subscription callbacks runs them one after the other; a task that
    serves a client hands the client's writes to the store operation.
    The loop may switch tasks between any two instructions. *)

Inductive Instr :=
| ISetGuard (b : bool)
| IStore (inst : PvProperty) (response : Response)
| IClientWrite (inst : PvProperty) (value : pyval).

(** The body of [_callback], instruction by instruction. *)
Definition callback_prog (inst : PvProperty) (response : Response) : list Instr :=
  [ISetGuard true; IStore inst response; ISetGuard false].

Inductive TaskSpec :=
| CallbackTask (updates : list (PvProperty * Response))
| ClientTask (writes : list (PvProperty * pyval)).

Definition task_prog (t : TaskSpec) : list Instr :=
  match t with
  | CallbackTask updates => concat (map (λ u, callback_prog u.1 u.2) updates)
  | ClientTask writes => map (λ x, IClientWrite x.1 x.2) writes
  end.

(** One instruction, in context [ctx].  An exception ends the operation
    it belongs to, not the task: the clean-up of the callback still runs,
    and the task goes on with its next operation. *)
Definition exec (ctx : nat) (i : Instr) : M unit :=
  match i with
  | ISetGuard b => internal_process_set ctx b
  | IStore inst response =>
      inst_write ctx inst (resp_data response)
        (Some (md_timestamp (resp_metadata response)))
  | IClientWrite inst value => inst_write ctx inst value None
  end.

(** An executed instruction: the context it ran in and the world it
    found. *)
Record Event := mkEvent {
  ev_ctx : nat;
  ev_instr : Instr;
  ev_world : World
}.

(** The guard that the instruction found in its context. *)
Definition ev_guard (ev : Event) : bool := guard_of (ev_ctx ev) (ev_world ev).

(** Modelled from the spec: the event loop, a single loop with
    cooperative suspension that all entries and the serving runtime
    share.  The tasks run under a schedule, the list of the task numbers
    that get the next turn; a turn executes the next instruction of the
    task in the context of the task and records the world it found. *)
Fixpoint run (sched : list nat) (pool : list (list Instr)) (w : World)
    : list Event * World :=
  match sched with
  | [] => ([], w)
  | i :: sched' =>
      match pool !! i with
      | Some (instr :: rest) =>
          let w1 := (exec i instr w).2 in
          let '(evs, w') := run sched' (<[i := rest]> pool) w1 in
          (mkEvent i instr w :: evs, w')
      | _ => run sched' pool w
      end
  end.

End Bridge.

(** ** The frame, the preloaded context and the command line *)

(** [MirrorFrame.__init__]: the containers that the hooks use start
    empty.  ([self.pv] and [self.subscription] are set to [None] there
    and read nowhere; the world has no place for them.) *)
Definition MirrorFrame_init : M unit :=
  modify (set_frame_callbacks (λ _, [])) ;;;
  modify (set_frame_pvs (λ _, ∅)) ;;;
  modify (set_frame_subs (λ _, [])).

(** Modelled from the spec: once the serving loop is live the serving
    runtime runs the startup hook of every property, each with its own
    instance. *)
Definition run_startup_hooks (props : list PvProperty) : M unit :=
  for_each props (λ p, startup (prop_pv_str p) p).

(** The broadcaster of a client context, as far as [PreloadedContext]
    touches it: the calls of [results.mark_name_found], in their order,
    and the dict [server_protocol_versions]. *)
Record Broadcaster := mkBroadcaster {
  marked_found : list (string * Address);
  server_protocol_versions : gmap Address Z
}.

(** [PreloadedContext.__init__], after [super().__init__] has made the
    broadcaster [b]: [cache = cache or {}], then one pass over the items
    of the cache. *)
Definition PreloadedContext_init (cache : option (list (string * (Address * Z))))
    (b : Broadcaster) : Broadcaster :=
  let cache := default [] cache in
  foldl (λ b item,
           let '(name, (addr, version)) := item in
           mkBroadcaster (marked_found b ++ [(name, addr)])
             (<[addr := version]> (server_protocol_versions b)))
        b cache.

(** [MirrorFrame.client_context]: [PreloadedContext(cache=self.config)]. *)
Definition client_context (config : list (string * (Address * Z)))
    (b : Broadcaster) : Broadcaster :=
  PreloadedContext_init (Some config) b.

(** [d[k] = v] on a dict kept as the list of its items in insertion
    order: a key that is there keeps its place. *)
Fixpoint dict_setitem {V} (d : list (string * V)) (k : string) (v : V)
    : list (string * V) :=
  match d with
  | [] => [(k, v)]
  | (k', v') :: rest =>
      if decide (k' = k) then (k', v) :: rest
      else (k', v') :: dict_setitem rest k v
  end.

(** The configuration of the main program:
    [{k: ((args.host, args.port), args.ca_version) for k in args.pvs}]. *)
Definition main_config (host : string) (port ca_version : Z) (pvs : list string)
    : list (string * (Address * Z)) :=
  foldl (λ d k, dict_setitem d k ((host, port), ca_version)) [] pvs.

(** The class of the main program: [make_mirror(config)], with the
    default of [force_read_only]. *)
Definition main_mirror (lib : Library) (rem : Remote)
    (host : string) (port ca_version : Z) (pvs : list string)
    : M (gmap string Attr) :=
  make_mirror lib rem (main_config host port ca_version pvs) false.

(** ** A small deployment, for the examples

    The library constants as caproto has them (the enumerated types are
    ENUM and its status, time, graphic and control variants; the control
    variant of a native type is 28 further; latin-1 decodes every byte
    string), a runtime that rejects arrays longer than the PV, and a
    server with an enumerated PV [switch] (labels OFF and ON, writable),
    a read-only floating-point PV [gauge], and two writable PVs whose
    writes time out ([slow]) or are rejected ([locked]). *)

Open Scope string_scope.

Definition example_lib : Library :=
  mkLibrary [3; 10; 17; 24; 31] (λ t, t + 28)
    (λ _ k, Some (string_of_list_byte k))
    (λ p v, match v with
            | PArr xs =>
                if (prop_max_length p <? length xs)%nat then Some ValueError else None
            | _ => None
            end).

Definition example_remote : Remote :=
  mkRemote
    (λ name _,
       if decide (name = "switch") then Created 3 1 3
       else if decide (name = "gauge") then Created 6 1 1
       else if decide (name = "slow") then Created 6 1 3
       else NoSuchPV)
    (λ name _,
       if decide (name = "switch") then
         ReadOk (mkResponse (PInt 0)
                   (mkMetadata 0 (Some [list_byte_of_string "OFF";
                                        list_byte_of_string "ON"])))
       else if decide (name = "gauge") then
         ReadOk (mkResponse (PArr [314]) (mkMetadata 0 None))
       else ReadFails)
    (λ _ name _,
       if decide (name = "slow") then WriteTimesOut
       else if decide (name = "locked") then WriteRejected
       else WriteAck).

Definition example_address : Address := ("10.0.0.5", 5064).

(** A server that has every PV, as a writable floating-point value. *)
Definition generous_remote : Remote :=
  mkRemote (λ _ _, Created 6 1 3)
    (λ _ _, ReadOk (mkResponse (PArr [0]) (mkMetadata 0 None)))
    (λ _ _ _, WriteAck).

Definition empty_world : World :=
  mkWorld ∅ ∅ ∅ ∅ ∅ [] 0 ∅ [] [] ∅ [] 1000.

Definition switch_prop : PvProperty :=
  mkPvProperty (PInt 0) 3 1 false (Some ["OFF"; "ON"]) "switch"
    (mkChannel 2 "switch" 0 3 1 3 "latin-1").

Definition gauge_prop : PvProperty :=
  mkPvProperty (PArr [314]) 6 1 true None "gauge"
    (mkChannel 2 "gauge" 0 6 1 1 "latin-1").

Definition slow_prop : PvProperty :=
  mkPvProperty (PArr [0]) 6 1 false None "slow"
    (mkChannel 2 "slow" 0 6 1 3 "latin-1").

(** The world once the startup hooks of the three properties have run. *)
Definition started_world : World :=
  (startup "slow" slow_prop
     (startup "gauge" gauge_prop
        (startup "switch" switch_prop empty_world).2).2).2.

Definition example_update : Response :=
  mkResponse (PArr [271]) (mkMetadata 100 None).

Definition example_subscription : Subscription :=
  mkSubscription (mkPV "gauge") "time" [gauge_prop].

Definition switch_update : Response :=
  mkResponse (PInt 1) (mkMetadata 101 None).

(** A task that runs the callbacks of two updates, a client that writes
    the entry under update, and a client that writes another entry. *)
Definition example_tasks : list TaskSpec :=
  [CallbackTask [(switch_prop, switch_update); (gauge_prop, example_update)];
   ClientTask [(switch_prop, PStr "ON")];
   ClientTask [(slow_prop, PArr [5])]].

(** A world in which the process already holds a connected channel and
    an open socket of its own, neither known to the resolver's caches. *)
Definition busy_world : World :=
  set_chan_states <[7%nat := CONNECTED]>
    (set_open_sockets (λ _, {[9%nat]}) (set_next_id (λ _, 10%nat) empty_world)).

Definition example_config : list (string * (Address * Z)) :=
  [("switch", (example_address, 13)); ("gauge", (example_address, 13));
   ("slow", (example_address, 13))].

(** A configuration with a PV that is named like the attribute of the
    class that holds the configuration. *)
Definition shadow_config : list (string * (Address * Z)) :=
  [("config", (example_address, 13)); ("gauge", (example_address, 13))].

Close Scope string_scope.

(** ** Predicates of the statements *)

(** What the resolution may do to the connection state: every socket it
    leaves open is one that was open before or one that the socket cache
    knows; the socket cache keeps its entries; no channel is left
    connected that was not connected before. *)
Definition resolves (w w' : World) : Prop :=
  (∀ s, s ∈ open_sockets w' →
        s ∈ open_sockets w ∨ ∃ c, csc_sockets w' !! c = Some s) ∧
  (∀ c s, csc_sockets w !! c = Some s → csc_sockets w' !! c = Some s) ∧
  (∀ cid, chan_states w' !! cid = Some CONNECTED →
          chan_states w !! cid = Some CONNECTED).

(** What an executed instruction may have seen: a client's write sees
    the guard clear; a callback finds the guard clear when it sets it,
    its store operation sees it set, and it is set when the callback
    clears it. *)
Definition event_ok (ev : Event) : bool :=
  match ev_instr ev with
  | IClientWrite _ _ => negb (ev_guard ev)
  | IStore _ _ => ev_guard ev
  | ISetGuard true => negb (ev_guard ev)
  | ISetGuard false => ev_guard ev
  end.

(** Where a task stands, given the guard of its context: a client task,
    a callback task between two callbacks, one that has set the guard and
    is about to store, one that is about to clear the guard. *)
Inductive task_ok : bool → list Instr → Prop :=
| task_client writes :
    task_ok false (task_prog (ClientTask writes))
| task_idle updates :
    task_ok false (task_prog (CallbackTask updates))
| task_armed inst response updates :
    task_ok true (IStore inst response :: ISetGuard false
                    :: task_prog (CallbackTask updates))
| task_closing updates :
    task_ok true (ISetGuard false :: task_prog (CallbackTask updates)).

(** What the handlers did at an executed instruction, in its context and
    in the world it found.  A client's write found the guard clear and
    its putter took the forward branch: it returned no value, it asked
    the remote PV for the converted value when the handle was there and
    the value converted, and the store operation committed nothing.  The
    store operation of a callback found the guard set and its putter
    returned the value of the update in an untouched world, so no remote
    PV was asked.  A callback found the guard clear when it set it and
    set when it cleared it. *)
Definition handler_ok (lib : Library) (rem : Remote) (ev : Event) : Prop :=
  let ctx := ev_ctx ev in
  let w := ev_world ev in
  match ev_instr ev with
  | IClientWrite inst value =>
      guard_of ctx w = false ∧
      (∀ v, (putter lib rem (prop_pv_str inst) (prop_chan inst) ctx inst value w).1
              ≠ Ok v) ∧
      (∀ pv v,
          frame_pvs w !! prop_pv_str inst = Some pv →
          (to_remote lib (prop_chan inst) inst value w).1 = Ok v →
          remote_writes
            (putter lib rem (prop_pv_str inst) (prop_chan inst) ctx inst value w).2 =
            remote_writes w ++ [(pv_name pv, v, 500)]) ∧
      store (exec lib rem ctx (IClientWrite inst value) w).2 = store w
  | IStore inst response =>
      guard_of ctx w = true ∧
      putter lib rem (prop_pv_str inst) (prop_chan inst) ctx inst
        (resp_data response) w = (Ok (resp_data response), w) ∧
      remote_writes (exec lib rem ctx (IStore inst response) w).2 = remote_writes w ∧
      (preprocess_value lib inst (resp_data response) = None →
       store (exec lib rem ctx (IStore inst response) w).2 !! prop_pv_str inst =
         Some (resp_data response, md_timestamp (resp_metadata response)))
  | ISetGuard true => guard_of ctx w = false
  | ISetGuard false => guard_of ctx w = true
  end.

Definition pool_ok (pool : list (list Instr)) (w : World) : Prop :=
  ∀ i prog, pool !! i = Some prog → task_ok (guard_of i w) prog.

(** The part of the world that belongs to the running bridge: the
    guard, the containers of the frame, the store, the record of remote
    writes, the clock. *)
Definition runtime_state (w : World) :=
  (internal_process w, frame_pvs w, frame_callbacks w, frame_subs w,
   store w, remote_writes w, clock w).

(** * Properties *)

Ltac unfold_monad :=
  unfold bind, ret, raise, gets, modify, try_finally in *.

(** ** Inversion of the monad's combinators *)

Lemma bind_ok {A B} (m : M A) (k : A → M B) w b w' :
  bind m k w = (Ok b, w') →
  ∃ a w1, m w = (Ok a, w1) ∧ k a w1 = (Ok b, w').
Proof.
  unfold bind. destruct (m w) as [[a|e] w1]; [|discriminate].
  intros Hk. by exists a, w1.
Qed.

Lemma ret_ok {A} (a b : A) w w' :
  ret a w = (Ok b, w') → a = b ∧ w = w'.
Proof. unfold ret. by intros [= -> ->]. Qed.

Lemma raise_ok {A} e (b : A) w w' :
  raise e w = (Ok b, w') → False.
Proof. unfold raise. discriminate. Qed.

Lemma try_finally_ok {A} (body : M A) (fin : M unit) w a w' :
  try_finally body fin w = (Ok a, w') →
  ∃ w1, body w = (Ok a, w1) ∧ fin w1 = (Ok tt, w').
Proof.
  unfold try_finally. destruct (body w) as [r wb].
  destruct (fin wb) as [[[]|e] wf] eqn:Hfin; [|discriminate].
  intros Heq. injection Heq as -> ->. exists wb. by split.
Qed.

(** The world after [try: body finally: fin] is the world after [fin],
    run where the body stopped. *)
Lemma try_finally_world {A} (body : M A) (fin : M unit) w :
  (try_finally body fin w).2 = (fin (body w).2).2.
Proof.
  unfold try_finally. destruct (body w) as [r w1]. cbn.
  by destruct (fin w1) as [[[]|e] w2].
Qed.

(** ** The putter and the store operation, branch by branch *)

Section BridgeFacts.

Variable lib : Library.
Variable rem : Remote.

Lemma internal_process_get_eq ctx w :
  internal_process_get ctx w = (Ok (guard_of ctx w), w).
Proof. reflexivity. Qed.

Lemma guard_of_set ctx b w :
  guard_of ctx (set_internal_process <[ctx := b]> w) = b.
Proof. unfold guard_of. cbn. by rewrite lookup_insert_eq. Qed.

Lemma guard_of_set_ne ctx ctx' b w :
  ctx ≠ ctx' →
  guard_of ctx' (set_internal_process <[ctx := b]> w) = guard_of ctx' w.
Proof. intros Hne. unfold guard_of. cbn. by rewrite lookup_insert_ne. Qed.

(** Guard set: the value comes back as it is and the world is untouched. *)
Lemma putter_guard_set pv_str chan ctx inst value w :
  guard_of ctx w = true →
  putter lib rem pv_str chan ctx inst value w = (Ok value, w).
Proof.
  intros Hg. unfold putter, bind. rewrite internal_process_get_eq, Hg.
  reflexivity.
Qed.

Lemma get_raw_value_pure inst value w :
  (get_raw_value inst value w).2 = w.
Proof using Type.
  unfold get_raw_value.
  destruct value; try reflexivity.
  destruct (prop_enum_strings inst); try reflexivity.
  by destruct (index_of s l).
Qed.

Lemma to_remote_pure chan inst value w :
  (to_remote lib chan inst value w).2 = w.
Proof.
  unfold to_remote. destruct (is_enum lib chan); [|reflexivity].
  apply get_raw_value_pure.
Qed.

(** Guard clear: the putter, spelled out on its four exits. *)
Lemma putter_guard_clear pv_str chan ctx inst value w :
  guard_of ctx w = false →
  putter lib rem pv_str chan ctx inst value w =
    match frame_pvs w !! pv_str with
    | None => (Raise (KeyError pv_str), w)
    | Some pv =>
        match (to_remote lib chan inst value w).1 with
        | Raise e => (Raise e, w)
        | Ok v =>
            let w1 := set_remote_writes (λ l, l ++ [(pv_name pv, v, 500)]) w in
            match remote_write rem (remote_writes w) (pv_name pv) v with
            | WriteAck => (Raise SkipWrite, w1)
            | WriteTimesOut => (Raise TimeoutError, w1)
            | WriteRejected => (Raise WriteError, w1)
            end
        end
    end.
Proof.
  intros Hg. unfold putter, bind. rewrite internal_process_get_eq, Hg.
  unfold frame_pvs_getitem. destruct (frame_pvs w !! pv_str) as [pv|]; [|done].
  pose proof (to_remote_pure chan inst value w) as Hp.
  destruct (to_remote lib chan inst value w) as [[v|e] w1]; cbn in Hp; subst w1; cbn.
  - unfold pv_write. by destruct (remote_write _ _ _ _).
  - done.
Qed.

Lemma putter_guard_clear_never_returns pv_str chan ctx inst value w v :
  guard_of ctx w = false →
  (putter lib rem pv_str chan ctx inst value w).1 ≠ Ok v.
Proof.
  intros Hg. rewrite putter_guard_clear by done.
  destruct (frame_pvs w !! pv_str); [|done].
  destruct ((to_remote lib chan inst value w).1); [|done].
  by destruct (remote_write _ _ _ _).
Qed.

(** The putter never touches the store nor the guard. *)
Lemma putter_store pv_str chan ctx inst value w :
  store (putter lib rem pv_str chan ctx inst value w).2 = store w.
Proof.
  destruct (guard_of ctx w) eqn:Hg.
  - by rewrite putter_guard_set.
  - rewrite putter_guard_clear by done.
    destruct (frame_pvs w !! pv_str); [|done].
    destruct ((to_remote lib chan inst value w).1); [|done].
    by destruct (remote_write _ _ _ _).
Qed.

Lemma putter_internal_process pv_str chan ctx inst value w :
  internal_process (putter lib rem pv_str chan ctx inst value w).2 = internal_process w.
Proof.
  destruct (guard_of ctx w) eqn:Hg.
  - by rewrite putter_guard_set.
  - rewrite putter_guard_clear by done.
    destruct (frame_pvs w !! pv_str); [|done].
    destruct ((to_remote lib chan inst value w).1); [|done].
    by destruct (remote_write _ _ _ _).
Qed.

(** The store operation when the guard is set: a commit of the value with
    the given timestamp, unless the runtime's checks reject the value. *)
Lemma inst_write_guard_set ctx inst value timestamp w :
  guard_of ctx w = true →
  inst_write lib rem ctx inst value timestamp w =
    match preprocess_value lib inst value with
    | Some e => (Raise e, w)
    | None =>
        (Ok tt, set_store <[prop_pv_str inst := (value, default (clock w) timestamp)]> w)
    end.
Proof.
  intros Hg. unfold inst_write.
  destruct (preprocess_value lib inst value); [done|].
  by rewrite putter_guard_set.
Qed.

(** The store operation when the guard is clear never commits. *)
Lemma inst_write_guard_clear_store ctx inst value timestamp w :
  guard_of ctx w = false →
  store (inst_write lib rem ctx inst value timestamp w).2 = store w.
Proof.
  intros Hg. unfold inst_write.
  destruct (preprocess_value lib inst value); [done|].
  pose proof (putter_guard_clear_never_returns (prop_pv_str inst) (prop_chan inst)
                ctx inst value w) as Hne.
  pose proof (putter_store (prop_pv_str inst) (prop_chan inst) ctx inst value w) as Hst.
  destruct (putter _ _ _ _ _ _ _ w) as [[v|e] w1]; cbn in *.
  - by destruct (Hne v Hg).
  - by destruct e.
Qed.

Lemma inst_write_internal_process ctx inst value timestamp w :
  internal_process (inst_write lib rem ctx inst value timestamp w).2 = internal_process w.
Proof.
  unfold inst_write.
  destruct (preprocess_value lib inst value); [done|].
  pose proof (putter_internal_process (prop_pv_str inst) (prop_chan inst)
                ctx inst value w) as Hip.
  destruct (putter _ _ _ _ _ _ _ w) as [[v|e] w1]; cbn in *; [done|].
  by destruct e.
Qed.

(** The callback is its three steps in a row: set the guard, store,
    clear the guard; its outcome is the outcome of the store. *)
Lemma _callback_steps ctx inst sub response w :
  _callback lib rem ctx inst sub response w =
    let w1 := set_internal_process <[ctx := true]> w in
    let '(r, w2) := inst_write lib rem ctx inst (resp_data response)
                      (Some (md_timestamp (resp_metadata response))) w1 in
    (r, set_internal_process <[ctx := false]> w2).
Proof.
  unfold _callback, try_finally, bind, internal_process_set, modify. cbn.
  by destruct (inst_write _ _ _ _ _ _ _) as [r w2].
Qed.

Lemma _callback_eq ctx inst sub response w :
  _callback lib rem ctx inst sub response w =
    let w1 := set_internal_process <[ctx := true]> w in
    match preprocess_value lib inst (resp_data response) with
    | Some e => (Raise e, set_internal_process <[ctx := false]> w1)
    | None =>
        (Ok tt,
         set_internal_process <[ctx := false]>
           (set_store <[prop_pv_str inst :=
                          (resp_data response, md_timestamp (resp_metadata response))]> w1))
    end.
Proof.
  rewrite _callback_steps. cbn zeta.
  rewrite inst_write_guard_set by apply guard_of_set.
  by destruct (preprocess_value _ _ _).
Qed.

End BridgeFacts.

(** ** The subscription bridge and the write bridge *)

Section BridgeClaims.

Variable lib : Library.
Variable rem : Remote.

(** C1.  An inbound update never causes an outbound write.  The store
    operation of the callback runs in a world in which the guard of the
    callback's context is set; a putter that sees the guard set returns
    the value and leaves the world, the record of remote writes
    included, as it is; so the remote writes after the callback are the
    remote writes before it. *)
Theorem callback_triggers_no_remote_write ctx inst sub response w :
  (∃ w1, guard_of ctx w1 = true ∧
         _callback lib rem ctx inst sub response w =
           let '(r, w2) := inst_write lib rem ctx inst (resp_data response)
                             (Some (md_timestamp (resp_metadata response))) w1 in
           (r, set_internal_process <[ctx := false]> w2)) ∧
  (∀ pv_str chan instance value w1,
      guard_of ctx w1 = true →
      putter lib rem pv_str chan ctx instance value w1 = (Ok value, w1)) ∧
  remote_writes (_callback lib rem ctx inst sub response w).2 = remote_writes w.
Proof.
  split; [|split].
  - exists (set_internal_process <[ctx := true]> w). split.
    + apply guard_of_set.
    + apply _callback_steps.
  - intros. by apply putter_guard_set.
  - rewrite _callback_eq. cbn zeta.
    by destruct (preprocess_value lib inst (resp_data response)).
Qed.

(** C2.  A write that arrives with the guard clear is forwarded and not
    committed.  When the PV handle is registered and the value converts
    to [v] (itself, or the raw code for an enumerated PV), the remote PV
    is asked to write [v] with the timeout 500; when the remote
    acknowledges, the putter raises [SkipWrite] and the store operation
    ends normally.  Whatever the outcome, the putter returns no value and
    the store is what it was. *)
Theorem client_write_forwards_and_skips ctx inst value timestamp w :
  guard_of ctx w = false →
  (∀ pv v,
      frame_pvs w !! prop_pv_str inst = Some pv →
      to_remote lib (prop_chan inst) inst value w = (Ok v, w) →
      remote_writes (putter lib rem (prop_pv_str inst) (prop_chan inst) ctx inst value w).2
        = remote_writes w ++ [(pv_name pv, v, 500)] ∧
      (remote_write rem (remote_writes w) (pv_name pv) v = WriteAck →
       (putter lib rem (prop_pv_str inst) (prop_chan inst) ctx inst value w).1
         = Raise SkipWrite ∧
       (preprocess_value lib inst value = None →
        (inst_write lib rem ctx inst value timestamp w).1 = Ok tt))) ∧
  (∀ v, (putter lib rem (prop_pv_str inst) (prop_chan inst) ctx inst value w).1 ≠ Ok v) ∧
  store (inst_write lib rem ctx inst value timestamp w).2 = store w.
Proof.
  intros Hg. split; [|split].
  - intros pv v Hpv Hconv.
    rewrite (putter_guard_clear lib rem) by done. rewrite Hpv, Hconv. cbn.
    split.
    + by destruct (remote_write _ _ _ _).
    + intros Hack. rewrite Hack. split; [done|].
      intros Hpre. unfold inst_write. rewrite Hpre.
      rewrite (putter_guard_clear lib rem) by done.
      rewrite Hpv, Hconv. cbn. by rewrite Hack.
  - intros v. by apply putter_guard_clear_never_returns.
  - by apply inst_write_guard_clear_store.
Qed.

(** C3.  The guard is set when the store operation of the callback
    starts, and it is clear when the callback is over, whether the store
    operation succeeded or the runtime rejected the value. *)
Theorem callback_releases_guard ctx inst sub response w :
  (∃ w1, guard_of ctx w1 = true ∧
         _callback lib rem ctx inst sub response w =
           let '(r, w2) := inst_write lib rem ctx inst (resp_data response)
                             (Some (md_timestamp (resp_metadata response))) w1 in
           (r, set_internal_process <[ctx := false]> w2)) ∧
  internal_process (_callback lib rem ctx inst sub response w).2 !! ctx = Some false ∧
  (∀ e, preprocess_value lib inst (resp_data response) = Some e →
        (_callback lib rem ctx inst sub response w).1 = Raise e ∧
        guard_of ctx (_callback lib rem ctx inst sub response w).2 = false).
Proof.
  split; [|split].
  - exists (set_internal_process <[ctx := true]> w). split.
    + apply guard_of_set.
    + apply _callback_steps.
  - rewrite _callback_steps. cbn zeta.
    destruct (inst_write _ _ _ _ _ _ _) as [r w2]. cbn.
    apply lookup_insert_eq.
  - intros e He. rewrite _callback_eq, He. cbn. split; [done|].
    unfold guard_of. cbn. by rewrite lookup_insert_eq.
Qed.

(** C4.  A remote write that times out or is rejected is the failure of
    the client's write, and the store is what it was; the store is what
    it was after an acknowledged write as well. *)
Theorem failed_remote_write_surfaces ctx inst value timestamp w pv v :
  guard_of ctx w = false →
  preprocess_value lib inst value = None →
  frame_pvs w !! prop_pv_str inst = Some pv →
  to_remote lib (prop_chan inst) inst value w = (Ok v, w) →
  (remote_write rem (remote_writes w) (pv_name pv) v = WriteTimesOut →
   (inst_write lib rem ctx inst value timestamp w).1 = Raise TimeoutError) ∧
  (remote_write rem (remote_writes w) (pv_name pv) v = WriteRejected →
   (inst_write lib rem ctx inst value timestamp w).1 = Raise WriteError) ∧
  store (inst_write lib rem ctx inst value timestamp w).2 = store w.
Proof.
  intros Hg Hpre Hpv Hconv. split; [|split].
  - intros Hout. unfold inst_write. rewrite Hpre.
    rewrite (putter_guard_clear lib rem) by done.
    rewrite Hpv, Hconv. cbn. by rewrite Hout.
  - intros Hout. unfold inst_write. rewrite Hpre.
    rewrite (putter_guard_clear lib rem) by done.
    rewrite Hpv, Hconv. cbn. by rewrite Hout.
  - by apply inst_write_guard_clear_store.
Qed.

(** C6.  The startup hook subscribes with the data type ["time"] and
    binds the callback to the instance; the callback hands the store
    operation the data of the update together with the timestamp of its
    metadata; an update that the callback stores lands in the store with
    that timestamp, whatever the local clock shows. *)
Theorem callback_preserves_timestamp ctx inst sub response w :
  frame_subs (startup (prop_pv_str inst) inst w).2 =
    frame_subs w ++ [mkSubscription (mkPV (prop_pv_str inst)) "time" [inst]] ∧
  _callback lib rem ctx inst sub response w =
    (let '(r, w2) := inst_write lib rem ctx inst (resp_data response)
                       (Some (md_timestamp (resp_metadata response)))
                       (set_internal_process <[ctx := true]> w) in
     (r, set_internal_process <[ctx := false]> w2)) ∧
  ((_callback lib rem ctx inst sub response w).1 = Ok tt →
   store (_callback lib rem ctx inst sub response w).2 !! prop_pv_str inst =
     Some (resp_data response, md_timestamp (resp_metadata response))).
Proof.
  split; [reflexivity|]. split; [apply _callback_steps|].
  rewrite _callback_eq. cbn zeta.
  destruct (preprocess_value lib inst (resp_data response)); [done|].
  intros _. cbn. apply lookup_insert_eq.
Qed.

(** C10.  With the guard set the putter returns the value it was given,
    for an enumerated PV too: no conversion, no remote write, the world
    untouched; the store operation commits that very value.  With the
    guard clear the same label goes out as its raw code. *)
Theorem putter_guard_set_keeps_value pv_str chan ctx inst value timestamp w :
  guard_of ctx w = true →
  putter lib rem pv_str chan ctx inst value w = (Ok value, w) ∧
  (preprocess_value lib inst value = None →
   inst_write lib rem ctx inst value timestamp w =
     (Ok tt, set_store <[prop_pv_str inst := (value, default (clock w) timestamp)]> w)) ∧
  (∀ s labels i pv w',
      is_enum lib chan = true →
      value = PStr s →
      prop_enum_strings inst = Some labels →
      index_of s labels = Some i →
      guard_of ctx w' = false →
      frame_pvs w' !! pv_str = Some pv →
      remote_writes (putter lib rem pv_str chan ctx inst value w').2 =
        remote_writes w' ++ [(pv_name pv, PInt (Z.of_nat i), 500)]).
Proof.
  intros Hg. split; [|split].
  - by apply putter_guard_set.
  - intros Hpre. rewrite inst_write_guard_set by done. by rewrite Hpre.
  - intros s labels i pv w' Henum -> Hlabels Hidx Hg' Hpv.
    rewrite (putter_guard_clear lib rem) by done. rewrite Hpv.
    unfold to_remote, get_raw_value. rewrite Henum, Hlabels, Hidx. cbn.
    by destruct (remote_write _ _ _ _).
Qed.

End BridgeClaims.

(** ** The resolver and the builder *)

Lemma flag_in_WRITE rights :
  flag_in AccessRights_WRITE rights = Z.testbit rights 1.
Proof.
  unfold flag_in, AccessRights_WRITE.
  assert (Hbits : ∀ n, 0 ≤ n → Z.testbit 2 n = (1 =? n)).
  { intros n Hn. change 2 with (2 ^ 1). by apply Z.pow2_bits_eqb. }
  destruct (Z.testbit rights 1) eqn:Hb.
  - apply Z.eqb_eq, Z.bits_inj'. intros n Hn.
    rewrite Z.land_spec, Hbits by done.
    destruct (Z.eqb_spec 1 n) as [<-|_].
    + by rewrite Hb.
    + apply andb_false_r.
  - apply Z.eqb_neq. intros Heq.
    assert (Z.testbit (Z.land rights 2) 1 = true) as Hc by (by rewrite Heq).
    rewrite Z.land_spec, Hb in Hc. done.
Qed.

Section ResolverFacts.

Variable lib : Library.
Variable rem : Remote.

(** A channel that was made carries what the server reported. *)
Lemma make_channel_from_address_ok pv_name address priority timeout w chan w1 :
  make_channel_from_address rem pv_name address priority timeout w = (Ok chan, w1) →
  ∃ dtype count rights,
    remote_connect rem pv_name address = Created dtype count rights ∧
    chan_name chan = pv_name ∧
    native_data_type chan = dtype ∧
    native_data_count chan = count ∧
    access_rights chan = rights ∧
    string_encoding chan = "latin-1"%string.
Proof.
  unfold make_channel_from_address. unfold_monad. unfold fresh_id.
  destruct (csc_global_circuits w !! (address, priority)) as [c|]; cbn;
    (match goal with
     | |- context [csc_sockets ?w0 !! ?c0] => destruct (csc_sockets w0 !! c0)
     end);
    destruct (remote_connect rem pv_name address) as [| |dtype count rights] eqn:Hc;
    cbn; intros Heq; try discriminate;
    injection Heq as <- <-; exists dtype, count, rights; done.
Qed.

Lemma decode_all_ok encoding ks w labels w1 :
  decode_all lib encoding ks w = (Ok labels, w1) →
  w1 = w ∧ Forall2 (λ k s, bytes_decode lib encoding k = Some s) ks labels.
Proof.
  revert labels w1. induction ks as [|k ks IH]; intros labels w1; cbn.
  - unfold ret. intros [= <- <-]. by split.
  - destruct (bytes_decode lib encoding k) as [s|] eqn:Hk; [|discriminate].
    unfold bind, ret.
    destruct (decode_all lib encoding ks w) as [[ss|e] w2] eqn:Hrest; [|discriminate].
    intros [= <- <-]. destruct (IH ss w2 eq_refl) as [-> Hall].
    split; [done|]. by constructor.
Qed.

(** The property that the resolver returns, read off the responses. *)
Lemma make_pvproperty_ok pv_str addr ver force_read_only w p w' :
  make_pvproperty lib rem pv_str (addr, ver) force_read_only w = (Ok p, w') →
  ∃ chan w1 resp,
    make_channel_from_address rem pv_str addr 0 5 w = (Ok chan, w1) ∧
    remote_read rem (chan_name chan)
      (field_types_control lib (native_data_type chan)) = ReadOk resp ∧
    prop_value p = resp_data resp ∧
    prop_dtype p = native_data_type chan ∧
    prop_max_length p = native_data_count chan ∧
    prop_read_only p =
      force_read_only || negb (flag_in AccessRights_WRITE (access_rights chan)) ∧
    prop_pv_str p = pv_str ∧
    prop_chan p = chan ∧
    (if is_enum lib chan then
       ∃ ks labels,
         md_enum_strings (resp_metadata resp) = Some ks ∧
         Forall2 (λ k s, bytes_decode lib (string_encoding chan) k = Some s) ks labels ∧
         prop_enum_strings p = Some labels
     else prop_enum_strings p = None).
Proof.
  unfold make_pvproperty. intros H.
  apply bind_ok in H as (chan & w1 & Hchan & H).
  apply try_finally_ok in H as (w2 & Hbody & _).
  apply bind_ok in Hbody as (resp & w3 & Hread & Hbody).
  apply bind_ok in Hbody as (extra & w4 & Hextra & Hret).
  apply ret_ok in Hret as [<- _].
  exists chan, w1, resp. split; [done|].
  unfold csc_read in Hread.
  destruct (remote_read rem (chan_name chan) _) as [r| |] eqn:Hr.
  - apply ret_ok in Hread as [-> ->].
    split; [done|]. cbn. repeat (split; [done|]).
    destruct (is_enum lib chan).
    + destruct (md_enum_strings (resp_metadata resp)) as [ks|].
      * apply bind_ok in Hextra as (labels & w5 & Hdec & Hret).
        apply ret_ok in Hret as [<- _].
        destruct (decode_all_ok _ _ _ _ _ Hdec) as [_ Hall].
        by exists ks, labels.
      * destruct (raise_ok _ _ _ _ Hextra).
    + by apply ret_ok in Hextra as [<- _].
  - destruct (raise_ok _ _ _ _ Hread).
  - apply bind_ok in Hread as (? & ? & _ & Hread).
    destruct (raise_ok _ _ _ _ Hread).
Qed.
End ResolverFacts.

Lemma index_of_first s labels i :
  labels !! i = Some s →
  (∀ j, (j < i)%nat → labels !! j ≠ Some s) →
  index_of s labels = Some i.
Proof.
  revert i. induction labels as [|l labels IH]; intros i Hi Hfirst; [done|].
  cbn. destruct i as [|i].
  - injection Hi as ->. by rewrite decide_True.
  - rewrite decide_False.
    + rewrite (IH i); [done|done|].
      intros j Hj. apply (Hfirst (S j)). lia.
    + intros ->. by apply (Hfirst O); [lia|].
Qed.

Section ResolverClaims.

Variable lib : Library.
Variable rem : Remote.

(** C5.  The property made for a resolved PV is read-only exactly when
    the force-read-only flag is given or the access rights that the
    server granted on the channel lack the WRITE bit. *)
Theorem read_only_iff_forced_or_not_writable pv_str addr ver force_read_only w p w' :
  make_pvproperty lib rem pv_str (addr, ver) force_read_only w = (Ok p, w') →
  ∃ dtype count rights,
    remote_connect rem pv_str addr = Created dtype count rights ∧
    access_rights (prop_chan p) = rights ∧
    (prop_read_only p = true ↔
       force_read_only = true ∨ Z.testbit rights 1 = false).
Proof.
  intros Hp.
  destruct (make_pvproperty_ok lib rem _ _ _ _ _ _ _ Hp)
    as (chan & w1 & resp & Hchan & _ & _ & _ & _ & Hro & _ & Hpc & _).
  destruct (make_channel_from_address_ok rem _ _ _ _ _ _ _ Hchan)
    as (dtype & count & rights & Hconn & _ & _ & _ & Hrights & _).
  exists dtype, count, rights. split; [done|]. split; [by rewrite Hpc|].
  rewrite Hro, Hrights, flag_in_WRITE.
  destruct force_read_only, (Z.testbit rights 1); cbn; intuition discriminate.
Qed.

(** C7.  For a PV of an enumerated type the property carries the labels
    of the control response, each decoded with the encoding of the
    channel; for any other type it carries no enum strings.  A client's
    write of a label of such a PV reaches the remote PV as the position
    of the label in that list. *)
Theorem enum_labels_decoded_and_written_raw pv_str addr ver force_read_only w p w' :
  make_pvproperty lib rem pv_str (addr, ver) force_read_only w = (Ok p, w') →
  (is_enum lib (prop_chan p) = false → prop_enum_strings p = None) ∧
  (is_enum lib (prop_chan p) = true →
   ∃ resp ks labels,
     remote_read rem pv_str
       (field_types_control lib (native_data_type (prop_chan p))) = ReadOk resp ∧
     md_enum_strings (resp_metadata resp) = Some ks ∧
     Forall2 (λ k s, bytes_decode lib (string_encoding (prop_chan p)) k = Some s)
       ks labels ∧
     prop_enum_strings p = Some labels ∧
     ∀ ctx s i pv w0,
       guard_of ctx w0 = false →
       frame_pvs w0 !! pv_str = Some pv →
       labels !! i = Some s →
       (∀ j, (j < i)%nat → labels !! j ≠ Some s) →
       remote_writes
         (putter lib rem (prop_pv_str p) (prop_chan p) ctx p (PStr s) w0).2 =
         remote_writes w0 ++ [(pv_name pv, PInt (Z.of_nat i), 500)]).
Proof.
  intros Hp.
  destruct (make_pvproperty_ok lib rem _ _ _ _ _ _ _ Hp)
    as (chan & w1 & resp & Hchan & Hread & _ & _ & _ & _ & Hname & Hpc & Henum).
  destruct (make_channel_from_address_ok rem _ _ _ _ _ _ _ Hchan)
    as (_ & _ & _ & _ & Hcn & _).
  rewrite Hpc, Hname. split.
  - intros Hne. by rewrite Hne in Henum.
  - intros He. rewrite He in Henum. destruct Henum as (ks & labels & Hks & Hall & Hlabels).
    exists resp, ks, labels. rewrite <- Hcn at 1. repeat (split; [done|]).
    intros ctx s i pv w0 Hg Hpv Hi Hfirst.
    rewrite (putter_guard_clear lib rem) by done. rewrite Hpv.
    unfold to_remote, get_raw_value.
    rewrite He, Hlabels, (index_of_first _ _ _ Hi Hfirst). cbn.
    by destruct (remote_write _ _ _ _).
Qed.

End ResolverClaims.

(** ** The registry: what resolution leaves behind *)

Lemma resolves_refl w : resolves w w.
Proof. repeat split; auto. Qed.

Lemma resolves_trans w1 w2 w3 :
  resolves w1 w2 → resolves w2 w3 → resolves w1 w3.
Proof.
  intros (Ho1 & Hs1 & Hc1) (Ho2 & Hs2 & Hc2). repeat split.
  - intros s Hs. destruct (Ho2 s Hs) as [Hin|Hc]; [|by right].
    destruct (Ho1 s Hin) as [Hin'|[c Hc]]; [by left|].
    right. exists c. by apply Hs2.
  - intros c s Hc. by apply Hs2, Hs1.
  - intros cid Hcid. by apply Hc1, Hc2.
Qed.

Section RegistryFacts.

Variable lib : Library.
Variable rem : Remote.

Lemma make_channel_from_address_world pv_name address priority timeout w :
  let r := make_channel_from_address rem pv_name address priority timeout w in
  (∀ s, s ∈ open_sockets r.2 →
        s ∈ open_sockets w ∨ ∃ c, csc_sockets r.2 !! c = Some s) ∧
  (∀ c s, csc_sockets w !! c = Some s → csc_sockets r.2 !! c = Some s) ∧
  chan_states r.2 =
    match r.1 with
    | Ok chan => <[chan_id chan := CONNECTED]> (chan_states w)
    | Raise _ => chan_states w
    end.
Proof.
  unfold make_channel_from_address. unfold_monad. unfold fresh_id.
  destruct (csc_global_circuits w !! (address, priority)) as [c|]; cbn.
  - destruct (csc_sockets w !! c) as [s0|] eqn:Hsock; cbn.
    + destruct (remote_connect rem pv_name address); cbn; repeat split; auto.
    + destruct (remote_connect rem pv_name address); cbn; repeat split; auto.
      all: try (intros s Hs; apply elem_of_union in Hs as [Hs|Hs]; [|by left];
                apply elem_of_singleton in Hs as ->; right; exists c;
                apply lookup_insert_eq).
      all: intros c' s' Hc'; rewrite lookup_insert_ne; [done|congruence].
  - destruct (csc_sockets w !! next_id w) as [s0|] eqn:Hsock; cbn.
    + destruct (remote_connect rem pv_name address); cbn; repeat split; auto.
    + destruct (remote_connect rem pv_name address); cbn; repeat split; auto.
      all: try (intros s Hs; apply elem_of_union in Hs as [Hs|Hs]; [|by left];
                apply elem_of_singleton in Hs as ->; right; exists (next_id w);
                apply lookup_insert_eq).
      all: intros c' s' Hc'; rewrite lookup_insert_ne; [done|congruence].
Qed.

Lemma decode_all_world encoding ks w :
  (decode_all lib encoding ks w).2 = w.
Proof.
  induction ks as [|k ks IH]; cbn; [done|].
  destruct (bytes_decode lib encoding k); [|done].
  unfold bind, ret. by destruct (decode_all lib encoding ks w) as [[ss|e] w1].
Qed.

Lemma bind_world {A B} (m : M A) (k : A → M B) w :
  (bind m k w).2 =
    match (m w).1 with
    | Ok a => (k a (m w).2).2
    | Raise _ => (m w).2
    end.
Proof. unfold bind. by destruct (m w) as [[a|e] w1]. Qed.

Lemma make_pvproperty_resolves pv_str addr_ver force_read_only w :
  resolves w (make_pvproperty lib rem pv_str addr_ver force_read_only w).2.
Proof.
  destruct addr_ver as [addr ver]. unfold make_pvproperty.
  rewrite bind_world.
  pose proof (make_channel_from_address_world pv_str addr 0 5 w) as (Ho & Hs & Hc).
  destruct (make_channel_from_address rem pv_str addr 0 5 w) as [[chan|e] w1];
    cbn in Ho, Hs, Hc |- *; [|repeat split; [done|done|by rewrite Hc]].
  rewrite try_finally_world.
  match goal with
  | |- resolves _ (?fin (?body w1).2).2 =>
      assert (open_sockets (body w1).2 = open_sockets w1 ∧
              csc_sockets (body w1).2 = csc_sockets w1 ∧
              (chan_states (body w1).2 = chan_states w1 ∨
               chan_states (body w1).2 =
                 <[chan_id chan := DISCONNECTED]> (chan_states w1)))
        as (Hbo & Hbs & Hbc);
      [|generalize dependent (body w1).2; intros w2 Hbo Hbs Hbc]
  end.
  { rewrite bind_world. unfold csc_read.
    destruct (remote_read rem (chan_name chan) _) as [resp| |]; cbn.
    2,3: by auto.
    rewrite bind_world.
    destruct (is_enum lib chan); [|cbn; repeat split; by left].
    destruct (md_enum_strings (resp_metadata resp)) as [ks|].
    2: { cbn. split; [done|]. split; [done|]. left. done. }
    pose proof (decode_all_world (string_encoding chan) ks w1) as Hd.
    unfold bind, ret.
    destruct (decode_all lib (string_encoding chan) ks w1) as [[labels|e] w3];
      cbn in Hd |- *; subst w3; repeat split; by left. }
  unfold bind, gets, csc_send, modify, ret. cbn.
  repeat split.
  - destruct (decide (chan_states w2 !! chan_id chan = Some CONNECTED)); cbn;
      intros s Hin; rewrite Hbo in Hin; rewrite Hbs; by apply Ho.
  - destruct (decide (chan_states w2 !! chan_id chan = Some CONNECTED)); cbn;
      intros c s Hin; rewrite Hbs; by apply Hs.
  - intros cid.
    destruct (decide (chan_states w2 !! chan_id chan = Some CONNECTED)) as [Hst|Hst];
      cbn; destruct (decide (cid = chan_id chan)) as [->|Hne].
    + by rewrite lookup_insert_eq.
    + rewrite lookup_insert_ne by done.
      destruct Hbc as [->| ->]; rewrite Hc; [|rewrite lookup_insert_ne by done];
        by rewrite lookup_insert_ne.
    + intros Hcon. by destruct Hst.
    + destruct Hbc as [->| ->]; rewrite Hc; [|rewrite lookup_insert_ne by done];
        by rewrite lookup_insert_ne.
Qed.

Lemma make_properties_resolves items force_read_only ns w :
  resolves w (make_properties lib rem items force_read_only ns w).2.
Proof.
  revert ns w. induction items as [|[pv_str addr_ver] items IH]; intros ns w; cbn.
  - apply resolves_refl.
  - rewrite bind_world.
    pose proof (make_pvproperty_resolves pv_str addr_ver force_read_only w) as Hp.
    destruct (make_pvproperty lib rem pv_str addr_ver force_read_only w)
      as [[p|e] w1]; cbn in *; [|done].
    eapply resolves_trans; [done|apply IH].
Qed.

Lemma for_each_socket_close sockets w :
  (for_each sockets socket_close w).2 =
    set_open_sockets (λ o, o ∖ list_to_set sockets) w.
Proof.
  revert w. induction sockets as [|s sockets IH]; intros w; cbn.
  - unfold ret, set_open_sockets. cbn. destruct w; cbn. f_equal.
    by rewrite difference_empty_L.
  - unfold bind, socket_close, modify. rewrite IH.
    unfold set_open_sockets. cbn. f_equal. apply difference_difference_l_L.
Qed.

Lemma for_each_socket_close_ok sockets w :
  (for_each sockets socket_close w).1 = Ok tt.
Proof.
  revert w. induction sockets as [|s sockets IH]; intros w; cbn; [done|].
  unfold bind, socket_close, modify. apply IH.
Qed.

(** The world after [make_mirror], whatever its outcome. *)
Lemma make_mirror_world config force_read_only w :
  let w' := (make_mirror lib rem config force_read_only w).2 in
  csc_sockets w' = ∅ ∧
  csc_global_circuits w' = ∅ ∧
  open_sockets w' ⊆ open_sockets w ∧
  (∀ cid, chan_states w' !! cid = Some CONNECTED →
          chan_states w !! cid = Some CONNECTED).
Proof.
  cbn zeta.
  unfold make_mirror. rewrite try_finally_world.
  match goal with
  | |- context [(?body w).2] =>
      assert (resolves w (body w).2) as (Ho & Hs & Hc);
      [|generalize dependent (body w).2; intros w1 Ho Hs Hc]
  end.
  { rewrite bind_world.
    pose proof (make_properties_resolves config force_read_only ∅ w) as Hr.
    by destruct (make_properties lib rem config force_read_only ∅ w) as [[ns|e] w1]. }
  rewrite bind_world. cbn.
  rewrite bind_world, for_each_socket_close_ok, for_each_socket_close. cbn.
  repeat split; [|done].
  intros s Hin. apply elem_of_difference in Hin as [Hin Hnot].
  destruct (Ho s Hin) as [Hw|[c Hc']]; [done|].
  destruct Hnot. apply elem_of_list_to_set, list_elem_of_fmap.
  exists (c, s). split; [done|]. by apply elem_of_map_to_list.
Qed.

End RegistryFacts.

Section RegistryClaims.

Variable lib : Library.
Variable rem : Remote.

(** C8.  When [make_mirror] is over, with the class or with the failure
    of an entry, the socket cache and the circuit cache are empty, every
    socket that is still open was open before and is none of the
    resolver's, and no channel that the resolver made is left connected:
    each was cleared at the end of its own resolution, whether its read
    succeeded or failed. *)
Theorem make_mirror_releases_connections config force_read_only w :
  let w' := (make_mirror lib rem config force_read_only w).2 in
  csc_sockets w' = ∅ ∧
  csc_global_circuits w' = ∅ ∧
  open_sockets w' ⊆ open_sockets w ∧
  (∀ cid, chan_states w' !! cid = Some CONNECTED →
          chan_states w !! cid = Some CONNECTED) ∧
  (∀ pv_str addr_ver w0 cid,
      chan_states (make_pvproperty lib rem pv_str addr_ver force_read_only w0).2
        !! cid = Some CONNECTED →
      chan_states w0 !! cid = Some CONNECTED).
Proof.
  cbn zeta.
  destruct (make_mirror_world lib rem config force_read_only w)
    as (Hsock & Hcirc & Hopen & Hchan).
  repeat (split; [done|]).
  intros pv_str addr_ver w0.
  by destruct (make_pvproperty_resolves lib rem pv_str addr_ver force_read_only w0)
    as (_ & _ & Hc).
Qed.

End RegistryClaims.

(** ** The guard under interleaving *)

Section TaskFacts.

Variable lib : Library.
Variable rem : Remote.

(** The three instructions of [callback_prog], run in a row in one
    context, are the callback. *)
Lemma callback_prog_is__callback ctx inst sub response w :
  (exec lib rem ctx (ISetGuard false)
     (exec lib rem ctx (IStore inst response)
        (exec lib rem ctx (ISetGuard true) w).2).2).2 =
  (_callback lib rem ctx inst sub response w).2.
Proof.
  rewrite _callback_steps. cbn.
  by destruct (inst_write _ _ _ _ _ _ _) as [r w2].
Qed.

Lemma exec_guard_of_ne i j instr w :
  i ≠ j → guard_of j (exec lib rem i instr w).2 = guard_of j w.
Proof.
  intros Hne. destruct instr as [b|inst response|inst value]; cbn.
  - by apply guard_of_set_ne.
  - unfold guard_of. by rewrite inst_write_internal_process.
  - unfold guard_of. by rewrite inst_write_internal_process.
Qed.

Lemma exec_task_ok i instr rest w :
  task_ok (guard_of i w) (instr :: rest) →
  event_ok (mkEvent i instr w) = true ∧
  task_ok (guard_of i (exec lib rem i instr w).2) rest.
Proof.
  intros Hok. unfold event_ok, ev_guard. cbn [ev_ctx ev_instr ev_world].
  inversion Hok as [writes Hg Hprog|updates Hg Hprog|
                    inst response updates Hg Hprog|updates Hg Hprog].
  - destruct writes as [|[inst value] writes]; [done|].
    injection Hprog as <- <-. cbn. split; [done|].
    unfold guard_of. rewrite inst_write_internal_process.
    fold (guard_of i w). rewrite <- Hg. apply task_client.
  - destruct updates as [|[inst response] updates]; [done|].
    injection Hprog as <- <-. split; [done|].
    cbn. rewrite guard_of_set. apply task_armed.
  - subst. cbn. split; [done|].
    unfold guard_of. rewrite inst_write_internal_process.
    fold (guard_of i w). rewrite <- Hg. apply task_closing.
  - subst. cbn. split; [done|].
    rewrite guard_of_set. apply task_idle.
Qed.

Lemma run_events_ok sched pool w :
  pool_ok pool w → Forall (λ ev, event_ok ev = true) (run lib rem sched pool w).1.
Proof.
  revert pool w. induction sched as [|i sched IH]; intros pool w Hpool; cbn.
  - constructor.
  - destruct (pool !! i) as [[|instr rest]|] eqn:Hi; try by apply IH.
    destruct (exec_task_ok i instr rest w (Hpool i _ Hi)) as [Hev Hrest].
    specialize (IH (<[i := rest]> pool) (exec lib rem i instr w).2).
    destruct (run lib rem sched _ _) as [evs w'] eqn:Hrun. cbn.
    constructor; [done|]. apply IH.
    intros j prog Hj. destruct (decide (i = j)) as [<-|Hne].
    + rewrite list_lookup_insert_eq in Hj by (by eapply lookup_lt_Some).
      by injection Hj as <-.
    + rewrite list_lookup_insert_ne in Hj by done.
      rewrite exec_guard_of_ne by done. by apply Hpool.
Qed.

(** From the guard that an instruction found to what its handlers did. *)
Lemma event_ok_handler_ok ev :
  event_ok ev = true → handler_ok lib rem ev.
Proof.
  destruct ev as [ctx instr w]. unfold event_ok, handler_ok, ev_guard.
  cbn [ev_ctx ev_instr ev_world].
  destruct instr as [[|]|inst response|inst value]; cbn [exec].
  - by intros ->%negb_true_iff.
  - done.
  - intros Hg. split; [done|]. split; [by apply putter_guard_set|].
    rewrite inst_write_guard_set by done.
    destruct (preprocess_value lib inst (resp_data response)); cbn; [done|].
    split; [done|]. intros _. apply lookup_insert_eq.
  - intros Hg%negb_true_iff. split; [done|].
    split; [intros v; by apply putter_guard_clear_never_returns|].
    split; [|by apply inst_write_guard_clear_store].
    intros pv v Hpv Hconv.
    rewrite (putter_guard_clear lib rem) by done. rewrite Hpv, Hconv. cbn.
    by destruct (remote_write _ _ _ _).
Qed.

End TaskFacts.

Section TaskClaims.

Variable lib : Library.
Variable rem : Remote.

(** C9.  The guard belongs to the context that set it.  Let any number
    of callback tasks and client tasks, each in its own context, run
    under any schedule from a world in which their guards are clear.
    Then the write handler of every client write, to whatever entry and
    at whatever moment, also while a callback has its guard set, takes
    the forward branch: it returns no value, forwards the converted
    value to the remote PV, and nothing is committed to the store.  The
    putter that the store operation of a callback calls returns the
    value of the update untouched and asks no remote PV; every callback
    finds the guard of its context clear when it starts, so the guard
    that its own store operation observes is the one it set itself. *)
Theorem guard_scoped_per_context tasks sched w :
  (∀ i, (i < length tasks)%nat → guard_of i w = false) →
  Forall (handler_ok lib rem) (run lib rem sched (task_prog <$> tasks) w).1.
Proof.
  intros Hclear.
  eapply Forall_impl; [|apply event_ok_handler_ok].
  apply run_events_ok.
  intros i prog Hi. rewrite list_lookup_fmap in Hi.
  destruct (tasks !! i) as [t|] eqn:Ht; [|done]. injection Hi as <-.
  rewrite Hclear by (by eapply lookup_lt_Some).
  destruct t; [apply task_idle|apply task_client].
Qed.
End TaskClaims.

(** * Further properties of the file *)

Lemma index_of_None s labels : s ∉ labels → index_of s labels = None.
Proof.
  induction labels as [|l labels IH]; intros Hnin; cbn; [done|].
  apply not_elem_of_cons in Hnin as [Hne Hnin].
  rewrite decide_False by done. by rewrite IH.
Qed.

Section RuntimeExtras.

Variable lib : Library.
Variable rem : Remote.

Lemma to_remote_world_independent chan inst value w w' :
  (to_remote lib chan inst value w).1 = (to_remote lib chan inst value w').1.
Proof.
  unfold to_remote. destruct (is_enum lib chan); [|done].
  unfold get_raw_value. destruct value; try done.
  destruct (prop_enum_strings inst); [|done]. by destruct (index_of s l).
Qed.

Lemma to_remote_eq chan inst value w :
  to_remote lib chan inst value w = ((to_remote lib chan inst value w).1, w).
Proof.
  pose proof (to_remote_pure lib chan inst value w) as Hp.
  destruct (to_remote lib chan inst value w) as [r w1]. cbn in *. by subst.
Qed.

(** X1.  A write that reaches the putter of a frame that was only
    constructed, before any startup hook, fails with [KeyError] for the
    name of the PV and leaves the world as it is: nothing is sent. *)
Theorem write_before_startup_raises_KeyError ctx inst value timestamp w :
  guard_of ctx w = false →
  preprocess_value lib inst value = None →
  inst_write lib rem ctx inst value timestamp (MirrorFrame_init w).2 =
    (Raise (KeyError (prop_pv_str inst)), (MirrorFrame_init w).2).
Proof.
  intros Hg Hpre. unfold inst_write. rewrite Hpre.
  rewrite (putter_guard_clear lib rem) by done. cbn.
  by rewrite lookup_empty.
Qed.

(** X2.  The conversion comes before the remote write: a value that
    does not convert makes the putter fail with the error of the
    conversion, in an unchanged world, so the remote PV is not asked. *)
Theorem putter_failed_conversion_sends_nothing pv_str chan ctx inst value pv e w :
  guard_of ctx w = false →
  frame_pvs w !! pv_str = Some pv →
  (to_remote lib chan inst value w).1 = Raise e →
  putter lib rem pv_str chan ctx inst value w = (Raise e, w).
Proof.
  intros Hg Hpv Hconv.
  rewrite (putter_guard_clear lib rem) by done. by rewrite Hpv, Hconv.
Qed.

(** X3.  The handle that the startup hook of a property registers is
    the one its putter looks up: after the hook, a client's write goes
    out under the name of the PV itself, converted, with the timeout
    500. *)
Theorem startup_then_write_forwards ctx inst value v w :
  guard_of ctx w = false →
  (to_remote lib (prop_chan inst) inst value w).1 = Ok v →
  remote_writes
    (putter lib rem (prop_pv_str inst) (prop_chan inst) ctx inst value
       (startup (prop_pv_str inst) inst w).2).2 =
    remote_writes w ++ [(prop_pv_str inst, v, 500)].
Proof.
  intros Hg Hconv.
  rewrite (putter_guard_clear lib rem) by done. cbn.
  rewrite lookup_insert_eq.
  rewrite (to_remote_world_independent _ _ _ _ w), Hconv. cbn.
  by destruct (remote_write _ _ _ _).
Qed.

Lemma startup_eq pv_str inst w :
  startup pv_str inst w =
    (Ok tt,
     set_frame_subs (λ l, l ++ [mkSubscription (mkPV pv_str) "time" [inst]])
       (set_frame_pvs <[pv_str := mkPV pv_str]>
          (set_frame_callbacks (λ l, l ++ [inst]) w))).
Proof. reflexivity. Qed.

(** The world after the startup hooks, as the model runs them. *)
Lemma run_startup_hooks_world props w :
  let r := run_startup_hooks props w in
  r.1 = Ok tt ∧
  (∀ k, frame_pvs r.2 !! k =
          if decide (k ∈ prop_pv_str <$> props) then Some (mkPV k)
          else frame_pvs w !! k) ∧
  frame_subs r.2 =
    frame_subs w ++
      ((λ p, mkSubscription (mkPV (prop_pv_str p)) "time" [p]) <$> props) ∧
  store r.2 = store w ∧
  remote_writes r.2 = remote_writes w ∧
  internal_process r.2 = internal_process w.
Proof.
  cbn zeta. unfold run_startup_hooks.
  revert w. induction props as [|p props IH]; intros w.
  - cbn. repeat split; try done. by rewrite app_nil_r.
  - cbn [for_each]. unfold bind at 1 2 3 4 5 6. rewrite startup_eq.
    destruct (IH (set_frame_subs
                    (λ l, l ++ [mkSubscription (mkPV (prop_pv_str p)) "time" [p]])
                    (set_frame_pvs <[prop_pv_str p := mkPV (prop_pv_str p)]>
                       (set_frame_callbacks (λ l, l ++ [p]) w))))
      as (Hok & Hpvs & Hsubs & Hstore & Hrw & Hip).
    repeat split; try done.
    + intros k. rewrite Hpvs. cbn.
      destruct (decide (k ∈ prop_pv_str <$> props)) as [Hin|Hnin].
      * rewrite decide_True; [done|]. by apply elem_of_cons; right.
      * destruct (decide (k = prop_pv_str p)) as [->|Hne].
        -- rewrite lookup_insert_eq, decide_True; [done|]. by apply elem_of_cons; left.
        -- rewrite lookup_insert_ne by done. rewrite decide_False; [done|].
           intros Hin. apply elem_of_cons in Hin as [?|?]; done.
    + rewrite Hsubs. cbn. by rewrite <- app_assoc.
Qed.

(** X4.  When the startup hooks of a list of properties have run
    through, the handle of every PV of the list is registered and the
    other handles are as they were, and for every property of the list
    the frame holds a ["time"] subscription to its PV whose callback is
    bound to the instance of that property, beside the subscriptions it
    held before.  The hooks touch neither the store nor the guard nor
    the remote PVs. *)
Theorem run_startup_hooks_registers props w :
  let r := run_startup_hooks props w in
  (r.1 = Ok tt →
   (∀ k, frame_pvs r.2 !! k =
           if decide (k ∈ prop_pv_str <$> props) then Some (mkPV k)
           else frame_pvs w !! k) ∧
   (∀ p, p ∈ props →
         mkSubscription (mkPV (prop_pv_str p)) "time" [p] ∈ frame_subs r.2) ∧
   (∀ s, s ∈ frame_subs w → s ∈ frame_subs r.2)) ∧
  store r.2 = store w ∧
  remote_writes r.2 = remote_writes w ∧
  internal_process r.2 = internal_process w.
Proof.
  cbn zeta.
  destruct (run_startup_hooks_world props w)
    as (_ & Hpvs & Hsubs & Hstore & Hrw & Hip).
  cbn zeta in Hpvs, Hsubs, Hstore, Hrw, Hip.
  split; [|done]. intros _. split; [done|]. rewrite Hsubs. split.
  - intros p Hp. apply elem_of_app. right.
    apply list_elem_of_fmap. by exists p.
  - intros s Hs. apply elem_of_app. by left.
Qed.

Lemma to_remote_raises chan inst value w e :
  (to_remote lib chan inst value w).1 = Raise e → e = ValueError.
Proof.
  unfold to_remote. destruct (is_enum lib chan); [|done].
  unfold get_raw_value. destruct value; try (by intros [= <-]).
  destruct (prop_enum_strings inst); [|by intros [= <-]].
  destruct (index_of s l); [done|by intros [= <-]].
Qed.

(** X5.  Once the frame is constructed and the startup hooks of its
    properties have run, a client's write fails with [KeyError] exactly
    for the names that are not among the properties. *)
Theorem started_frame_serves_exactly_its_props props ctx pv_str chan inst value w :
  guard_of ctx w = false →
  (putter lib rem pv_str chan ctx inst value
     (run_startup_hooks props (MirrorFrame_init w).2).2).1 = Raise (KeyError pv_str)
  ↔ pv_str ∉ prop_pv_str <$> props.
Proof.
  intros Hg.
  destruct (run_startup_hooks_world props (MirrorFrame_init w).2)
    as (_ & Hpvs & _ & _ & _ & Hip).
  cbn zeta in Hpvs, Hip.
  rewrite (putter_guard_clear lib rem) by (unfold guard_of; by rewrite Hip).
  rewrite Hpvs.
  destruct (decide (pv_str ∈ prop_pv_str <$> props)) as [Hin|Hnin].
  - split; [|done]. intros Hkey. exfalso.
    destruct ((to_remote lib chan inst value _).1) as [v|e] eqn:Hconv.
    + by destruct (remote_write _ _ _ _).
    + apply to_remote_raises in Hconv. subst e. discriminate.
  - cbn. by rewrite lookup_empty.
Qed.

(** X6.  A callback changes the store entry of its own PV only and the
    guard of its own context only; handles, subscriptions, channels and
    sockets stay as they are. *)
Theorem callback_touches_its_own_entry_only ctx inst sub response w :
  let w' := (_callback lib rem ctx inst sub response w).2 in
  (∀ k, k ≠ prop_pv_str inst → store w' !! k = store w !! k) ∧
  (∀ c, c ≠ ctx → guard_of c w' = guard_of c w) ∧
  frame_pvs w' = frame_pvs w ∧
  frame_subs w' = frame_subs w ∧
  chan_states w' = chan_states w ∧
  open_sockets w' = open_sockets w.
Proof.
  cbn zeta. rewrite _callback_eq. cbn zeta.
  destruct (preprocess_value lib inst (resp_data response)); cbn.
  - repeat split; try done.
    intros c Hc. unfold guard_of. cbn.
    by rewrite !lookup_insert_ne.
  - repeat split; try done.
    + intros k Hk. by rewrite lookup_insert_ne.
    + intros c Hc. unfold guard_of. cbn.
      by rewrite !lookup_insert_ne.
Qed.

(** X7.  Echo: an acknowledged client write leaves the store as it
    was and ends normally; the update that follows puts its value and
    its timestamp in the store; over the two steps the remote PV was
    asked once, for the converted value. *)
Theorem write_then_update_echoes ctx ctx' inst value sub response w pv v :
  guard_of ctx w = false →
  preprocess_value lib inst value = None →
  frame_pvs w !! prop_pv_str inst = Some pv →
  (to_remote lib (prop_chan inst) inst value w).1 = Ok v →
  remote_write rem (remote_writes w) (pv_name pv) v = WriteAck →
  preprocess_value lib inst (resp_data response) = None →
  let w1 := (inst_write lib rem ctx inst value None w).2 in
  let w2 := (_callback lib rem ctx' inst sub response w1).2 in
  (inst_write lib rem ctx inst value None w).1 = Ok tt ∧
  store w1 = store w ∧
  store w2 !! prop_pv_str inst =
    Some (resp_data response, md_timestamp (resp_metadata response)) ∧
  remote_writes w2 = remote_writes w ++ [(pv_name pv, v, 500)].
Proof.
  intros Hg Hpre Hpv Hconv Hack Hpre'. cbn zeta.
  rewrite _callback_eq. cbn zeta. rewrite Hpre'. cbn.
  unfold inst_write. rewrite Hpre.
  rewrite (putter_guard_clear lib rem) by done.
  rewrite Hpv, Hconv. cbn. rewrite Hack. cbn.
  repeat split; try done. apply lookup_insert_eq.
Qed.
End RuntimeExtras.

Section RegistryExtras.

Variable lib : Library.
Variable rem : Remote.

(** [make_mirror], outcome and world: the outcome of the comprehension
    with the [config] attribute added, in the world that the clean-up
    makes of the world where the comprehension stopped. *)
Lemma make_mirror_eq config force_read_only w :
  make_mirror lib rem config force_read_only w =
    let r := make_properties lib rem config force_read_only ∅ w in
    (match r.1 with
     | Ok ns => Ok (<["config"%string := AConfig config]> ns)
     | Raise e => Raise e
     end,
     set_csc_global_circuits (λ _, ∅)
       (set_csc_sockets (λ _, ∅)
          (set_open_sockets
             (λ o, o ∖ list_to_set (map_to_list (csc_sockets r.2)).*2) r.2))).
Proof.
  cbn zeta. unfold make_mirror, try_finally.
  unfold bind at 1, ret at 1.
  destruct (make_properties lib rem config force_read_only ∅ w) as [[ns|e] w1]; cbn.
  all: unfold bind, gets, modify; cbn.
  all: pose proof (for_each_socket_close_ok (map_to_list (csc_sockets w1)).*2 w1) as Hok.
  all: pose proof (for_each_socket_close (map_to_list (csc_sockets w1)).*2 w1) as Hw.
  all: destruct (for_each _ socket_close w1) as [r w2]; cbn in Hok, Hw; subst r w2.
  all: reflexivity.
Qed.

Lemma make_properties_app l1 l2 force_read_only ns w :
  make_properties lib rem (l1 ++ l2) force_read_only ns w =
    match make_properties lib rem l1 force_read_only ns w with
    | (Ok ns1, w1) => make_properties lib rem l2 force_read_only ns1 w1
    | (Raise e, w1) => (Raise e, w1)
    end.
Proof.
  revert ns w. induction l1 as [|[k av] l1 IH]; intros ns w; cbn; [done|].
  unfold bind. destruct (make_pvproperty lib rem k av force_read_only w) as [[p|e] w1];
    [apply IH|done].
Qed.

Lemma make_properties_ok items force_read_only ns w ns' w' :
  make_properties lib rem items force_read_only ns w = (Ok ns', w') →
  (∀ k, k ∉ items.*1 → ns' !! k = ns !! k) ∧
  (∀ k, k ∈ items.*1 →
        ∃ p addr_ver w0 w1,
          ns' !! k = Some (AProp p) ∧ (k, addr_ver) ∈ items ∧
          make_pvproperty lib rem k addr_ver force_read_only w0 = (Ok p, w1)).
Proof.
  revert ns w. induction items as [|[k0 av] items IH]; intros ns w; cbn.
  - intros Hret. apply ret_ok in Hret as [-> _]. split; [done|].
    intros k Hk. by apply elem_of_nil in Hk.
  - intros Hbind. apply bind_ok in Hbind as (p & w1 & Hp & Hrest).
    destruct (IH _ _ Hrest) as [Hout Hin]. split.
    + intros k Hk. apply not_elem_of_cons in Hk as [Hne Hk].
      rewrite (Hout k Hk). by rewrite lookup_insert_ne.
    + intros k Hk. destruct (decide (k ∈ items.*1)) as [Hi|Hni].
      * destruct (Hin k Hi) as (p' & av' & w0 & w2 & Hl & Hmem & Hmk).
        exists p', av', w0, w2. split; [done|]. split; [|done].
        by apply elem_of_cons; right.
      * apply elem_of_cons in Hk as [->|Hk]; [|done].
        exists p, av, w, w1. rewrite (Hout k0 Hni), lookup_insert_eq.
        split; [done|]. split; [|done]. by apply elem_of_cons; left.
Qed.

Lemma make_mirror_ok config force_read_only w ns :
  (make_mirror lib rem config force_read_only w).1 = Ok ns →
  ns !! "config"%string = Some (AConfig config) ∧
  (∀ k, k ≠ "config"%string → k ∉ config.*1 → ns !! k = None) ∧
  (∀ k, k ≠ "config"%string → k ∈ config.*1 →
        ∃ p addr_ver w0 w1,
          ns !! k = Some (AProp p) ∧ prop_pv_str p = k ∧
          (k, addr_ver) ∈ config ∧
          make_pvproperty lib rem k addr_ver force_read_only w0 = (Ok p, w1)).
Proof.
  rewrite make_mirror_eq. cbn.
  destruct (make_properties lib rem config force_read_only ∅ w) as [[ns0|e] w1] eqn:Hmk;
    cbn; [|done].
  intros [= <-]. destruct (make_properties_ok _ _ _ _ _ _ Hmk) as [Hout Hin].
  split; [apply lookup_insert_eq|]. split.
  - intros k Hne Hk. rewrite lookup_insert_ne by done. by rewrite Hout.
  - intros k Hne Hk. destruct (Hin k Hk) as (p & [addr ver] & w0 & w2 & Hl & Hmem & Hp).
    exists p, (addr, ver), w0, w2. rewrite lookup_insert_ne by done.
    split; [done|]. split; [|done].
    by destruct (make_pvproperty_ok lib rem _ _ _ _ _ _ _ Hp)
      as (? & ? & ? & _ & _ & _ & _ & _ & _ & Hname & _).
Qed.

(** X8.  The class that [make_mirror] returns has the configuration
    under [config], also when a PV of that name is configured (the
    property made for it is dropped); under every other configured name
    it has the property that [make_pvproperty] made for that name, and
    nothing under any other name. *)
Theorem make_mirror_class_attributes config force_read_only w ns :
  (make_mirror lib rem config force_read_only w).1 = Ok ns →
  ns !! "config"%string = Some (AConfig config) ∧
  (∀ k, k ≠ "config"%string → k ∉ config.*1 → ns !! k = None) ∧
  (∀ k, k ≠ "config"%string → k ∈ config.*1 →
        ∃ p addr_ver w0 w1,
          ns !! k = Some (AProp p) ∧ prop_pv_str p = k ∧
          (k, addr_ver) ∈ config ∧
          make_pvproperty lib rem k addr_ver force_read_only w0 = (Ok p, w1)).
Proof. apply make_mirror_ok. Qed.

(** X9.  Assembly stops at the first entry whose resolution fails:
    [make_mirror] raises the exception of that entry, and the entries
    after it are never resolved (no command sent, no channel made, no
    identifier taken beyond the failing entry). *)
Theorem make_mirror_fails_fast resolved k addr_ver rest force_read_only w ns1 w1 e w2 :
  make_properties lib rem resolved force_read_only ∅ w = (Ok ns1, w1) →
  make_pvproperty lib rem k addr_ver force_read_only w1 = (Raise e, w2) →
  let r := make_mirror lib rem (resolved ++ (k, addr_ver) :: rest) force_read_only w in
  r.1 = Raise e ∧
  sent r.2 = sent w2 ∧
  chan_states r.2 = chan_states w2 ∧
  next_id r.2 = next_id w2.
Proof.
  intros Hres Hfail. cbn zeta. rewrite make_mirror_eq. cbn zeta.
  rewrite make_properties_app, Hres. cbn [make_properties].
  unfold bind. rewrite Hfail. cbn [fst snd]. repeat split.
Qed.

Lemma make_properties_ignores_versions c1 c2 force_read_only ns w :
  (λ x, (x.1, x.2.1)) <$> c1 = (λ x, (x.1, x.2.1)) <$> c2 →
  make_properties lib rem c1 force_read_only ns w =
  make_properties lib rem c2 force_read_only ns w.
Proof.
  revert c2 ns w. induction c1 as [|[k1 [a1 v1]] c1 IH];
    intros [|[k2 [a2 v2]] c2] ns w Heq; try done.
  cbn in Heq. injection Heq as -> -> Heq. cbn.
  unfold bind.
  destruct (make_channel_from_address rem k2 a2 0 5 w) as [[chan|e] w1]; [|done].
  match goal with
  | |- match ?m with _ => _ end = _ => destruct m as [[p|e] w2]; [|done]
  end.
  by apply IH.
Qed.

(** X10.  The resolver does not use the protocol version of an entry:
    two configurations with the same names and addresses leave the same
    world and give the same properties or the same exception, whatever
    their versions. *)
Theorem resolution_ignores_protocol_version c1 c2 force_read_only w :
  (λ x, (x.1, x.2.1)) <$> c1 = (λ x, (x.1, x.2.1)) <$> c2 →
  (make_mirror lib rem c1 force_read_only w).2 =
    (make_mirror lib rem c2 force_read_only w).2 ∧
  match (make_mirror lib rem c1 force_read_only w).1,
        (make_mirror lib rem c2 force_read_only w).1 with
  | Ok ns1, Ok ns2 => delete "config"%string ns1 = delete "config"%string ns2
  | Raise e1, Raise e2 => e1 = e2
  | _, _ => False
  end.
Proof.
  intros Heq. rewrite !make_mirror_eq. cbn zeta.
  rewrite (make_properties_ignores_versions c1 c2) by done.
  split; [done|]. cbn.
  destruct (make_properties lib rem c2 force_read_only ∅ w) as [[ns|e] w1]; cbn; [|done].
  by rewrite !delete_insert_eq.
Qed.

Lemma make_channel_from_address_runtime pv_name address priority timeout w :
  let r := make_channel_from_address rem pv_name address priority timeout w in
  runtime_state r.2 = runtime_state w ∧ sent r.2 = sent w.
Proof.
  cbn zeta. unfold make_channel_from_address. unfold_monad. unfold fresh_id.
  destruct (csc_global_circuits w !! (address, priority)) as [c|]; cbn;
    (match goal with
     | |- context [csc_sockets ?w0 !! ?c0] => destruct (csc_sockets w0 !! c0)
     end);
    destruct (remote_connect rem pv_name address); done.
Qed.

(** The world after [make_pvproperty], in closed form. *)
Lemma make_pvproperty_world pv_str addr ver force_read_only w :
  (make_pvproperty lib rem pv_str (addr, ver) force_read_only w).2 =
    match make_channel_from_address rem pv_str addr 0 5 w with
    | (Raise _, w1) => w1
    | (Ok chan, w1) =>
        let w2 :=
          match remote_read rem (chan_name chan)
                  (field_types_control lib (native_data_type chan)) with
          | ReadDrops => set_chan_states <[chan_id chan := DISCONNECTED]> w1
          | _ => w1
          end in
        if decide (chan_states w2 !! chan_id chan = Some CONNECTED)
        then set_chan_states <[chan_id chan := MUST_CLOSE]>
               (set_sent (λ l, l ++ [(chan_circuit chan,
                                      ClearChannelRequest (chan_name chan) (chan_id chan))])
                  w2)
        else w2
    end.
Proof.
  unfold make_pvproperty. rewrite bind_world.
  destruct (make_channel_from_address rem pv_str addr 0 5 w) as [[chan|e] w1];
    cbn [fst snd]; [|done].
  rewrite try_finally_world.
  match goal with
  | |- (?fin (?body w1).2).2 = _ =>
      assert ((body w1).2 =
              match remote_read rem (chan_name chan)
                      (field_types_control lib (native_data_type chan)) with
              | ReadDrops => set_chan_states <[chan_id chan := DISCONNECTED]> w1
              | _ => w1
              end) as ->
  end.
  { rewrite bind_world. unfold csc_read.
    destruct (remote_read rem (chan_name chan) _) as [resp| |]; cbn; [|done|done].
    destruct (is_enum lib chan); [|done].
    destruct (md_enum_strings (resp_metadata resp)) as [ks|]; [|done].
    pose proof (decode_all_world lib (string_encoding chan) ks w1) as Hd.
    unfold bind, ret.
    by destruct (decode_all lib (string_encoding chan) ks w1) as [[labels|e] w3];
      cbn in Hd |- *; subst w3. }
  cbn zeta. unfold bind, gets, csc_send, modify, ret. cbn.
  match goal with
  | |- context [decide (chan_states ?w2 !! _ = _)] =>
      by destruct (decide (chan_states w2 !! chan_id chan = Some CONNECTED))
  end.
Qed.

Lemma make_pvproperty_runtime pv_str addr_ver force_read_only w :
  runtime_state (make_pvproperty lib rem pv_str addr_ver force_read_only w).2 =
  runtime_state w.
Proof.
  destruct addr_ver as [addr ver]. rewrite make_pvproperty_world.
  pose proof (make_channel_from_address_runtime pv_str addr 0 5 w) as [Hr _].
  destruct (make_channel_from_address rem pv_str addr 0 5 w) as [[chan|e] w1];
    cbn in Hr |- *; [|done].
  rewrite <- Hr.
  destruct (remote_read rem (chan_name chan) _); cbn;
    match goal with
    | |- context [decide (?P)] => by destruct (decide P)
    end.
Qed.

Lemma make_properties_runtime items force_read_only ns w :
  runtime_state (make_properties lib rem items force_read_only ns w).2 =
  runtime_state w.
Proof.
  revert ns w. induction items as [|[k av] items IH]; intros ns w; cbn; [done|].
  rewrite bind_world.
  pose proof (make_pvproperty_runtime k av force_read_only w) as Hp.
  destruct (make_pvproperty lib rem k av force_read_only w) as [[p|e] w1];
    cbn in Hp |- *; [|done].
  by rewrite IH.
Qed.

(** X11.  Resolution leaves the running bridge alone: after
    [make_mirror] the guard, the handles, callbacks and subscriptions of
    the frame, the store, the record of remote writes and the clock are
    what they were; in particular no remote PV was written. *)
Theorem make_mirror_leaves_runtime_alone config force_read_only w :
  runtime_state (make_mirror lib rem config force_read_only w).2 = runtime_state w.
Proof.
  rewrite make_mirror_eq. cbn.
  apply (make_properties_runtime config force_read_only ∅ w).
Qed.

(** X12.  [make_pvproperty] sends exactly one [ClearChannelRequest],
    for its own channel on its own circuit, when the channel was made
    and is still connected at the end (the read succeeded, failed, or
    the labels did not decode); it sends nothing when no channel was
    made or the server dropped the connection. *)
Theorem make_pvproperty_clears_its_channel pv_str addr ver force_read_only w :
  sent (make_pvproperty lib rem pv_str (addr, ver) force_read_only w).2 =
    sent w ++
    match make_channel_from_address rem pv_str addr 0 5 w with
    | (Raise _, _) => []
    | (Ok chan, _) =>
        match remote_read rem pv_str
                (field_types_control lib (native_data_type chan)) with
        | ReadDrops => []
        | _ => [(chan_circuit chan, ClearChannelRequest pv_str (chan_id chan))]
        end
    end.
Proof.
  rewrite make_pvproperty_world.
  pose proof (make_channel_from_address_runtime pv_str addr 0 5 w) as [_ Hs].
  pose proof (make_channel_from_address_world rem pv_str addr 0 5 w) as (_ & _ & Hc).
  destruct (make_channel_from_address rem pv_str addr 0 5 w) as [[chan|e] w1] eqn:Hmk;
    cbn in Hs, Hc |- *; [|by rewrite Hs, app_nil_r].
  destruct (make_channel_from_address_ok rem _ _ _ _ _ _ _ Hmk)
    as (_ & _ & _ & _ & Hname & _).
  rewrite Hname.
  destruct (remote_read rem pv_str _); cbn.
  - rewrite decide_True by (by rewrite Hc, lookup_insert_eq). cbn. by rewrite Hs.
  - rewrite decide_True by (by rewrite Hc, lookup_insert_eq). cbn. by rewrite Hs.
  - rewrite decide_False by (by rewrite lookup_insert_eq). cbn.
    by rewrite Hs, app_nil_r.
Qed.

(** X13.  A resolved property copies the descriptor: its initial
    value is the data of the read of the control variant of the native
    type, its type and maximal length are the native type and count that
    the server reported for the channel, and it is bound to the name of
    the entry. *)
Theorem make_pvproperty_copies_the_descriptor pv_str addr ver force_read_only w p w' :
  make_pvproperty lib rem pv_str (addr, ver) force_read_only w = (Ok p, w') →
  ∃ dtype count rights resp,
    remote_connect rem pv_str addr = Created dtype count rights ∧
    remote_read rem pv_str (field_types_control lib dtype) = ReadOk resp ∧
    prop_value p = resp_data resp ∧
    prop_dtype p = dtype ∧
    prop_max_length p = count ∧
    prop_pv_str p = pv_str ∧
    chan_name (prop_chan p) = pv_str.
Proof.
  intros Hp.
  destruct (make_pvproperty_ok lib rem _ _ _ _ _ _ _ Hp)
    as (chan & w1 & resp & Hchan & Hread & Hv & Hd & Hm & _ & Hname & Hpc & _).
  destruct (make_channel_from_address_ok rem _ _ _ _ _ _ _ Hchan)
    as (dtype & count & rights & Hconn & Hcn & Hdt & Hcount & _).
  exists dtype, count, rights, resp.
  rewrite Hcn, Hdt in Hread. rewrite Hpc, Hd, Hm, Hdt, Hcount, Hcn. done.
Qed.
End RegistryExtras.

(** ** The preloaded context and the main program *)

Lemma preload_versions_other (items : list (string * (Address * Z))) b addr :
  addr ∉ (λ x, x.2.1) <$> items →
  server_protocol_versions (PreloadedContext_init (Some items) b) !! addr =
  server_protocol_versions b !! addr.
Proof.
  unfold PreloadedContext_init. cbn.
  revert b. induction items as [|[name [a v]] items IH]; intros b Hnin; [done|].
  cbn in Hnin |- *. apply not_elem_of_cons in Hnin as [Hne Hnin].
  rewrite IH by done. cbn. by rewrite lookup_insert_ne.
Qed.

Lemma preload_versions_last (l1 l2 : list (string * (Address * Z))) name addr ver b :
  addr ∉ (λ x, x.2.1) <$> l2 →
  server_protocol_versions
    (PreloadedContext_init (Some (l1 ++ (name, (addr, ver)) :: l2)) b) !! addr
  = Some ver.
Proof.
  intros Hnin. unfold PreloadedContext_init. cbn. rewrite foldl_app. cbn.
  match goal with
  | |- server_protocol_versions (foldl ?f ?b0 l2) !! _ = _ =>
      change (foldl f b0 l2) with (PreloadedContext_init (Some l2) b0)
  end.
  rewrite preload_versions_other by done. cbn. apply lookup_insert_eq.
Qed.

Lemma preload_marked (items : list (string * (Address * Z))) b :
  marked_found (PreloadedContext_init (Some items) b) =
  marked_found b ++ ((λ x, (x.1, x.2.1)) <$> items).
Proof.
  unfold PreloadedContext_init. cbn.
  revert b. induction items as [|[name [a v]] items IH]; intros b; cbn.
  - by rewrite app_nil_r.
  - rewrite IH. cbn. by rewrite <- app_assoc.
Qed.

(** X14.  [PreloadedContext]: without a cache, or with an empty one,
    the broadcaster is untouched; otherwise every name of the cache is
    marked found at its address, in the order of the cache, an address
    that the cache does not name keeps its version, and an address that
    it names gets the version of the last entry that names it. *)
Theorem preloaded_context_versions cache b addr :
  let b' := PreloadedContext_init cache b in
  (addr ∉ (λ x, x.2.1) <$> default [] cache →
   server_protocol_versions b' !! addr = server_protocol_versions b !! addr) ∧
  (∀ l1 name ver l2,
      cache = Some (l1 ++ (name, (addr, ver)) :: l2) →
      addr ∉ (λ x, x.2.1) <$> l2 →
      server_protocol_versions b' !! addr = Some ver) ∧
  marked_found b' = marked_found b ++ ((λ x, (x.1, x.2.1)) <$> default [] cache).
Proof.
  cbn zeta. destruct cache as [items|].
  - split; [apply preload_versions_other|]. split; [|apply preload_marked].
    intros l1 name ver l2 [= ->]. apply preload_versions_last.
  - cbn. split; [done|]. split; [done|]. by rewrite app_nil_r.
Qed.

Lemma dict_setitem_keys {V} (d : list (string * V)) k v :
  (dict_setitem d k v).*1 = if decide (k ∈ d.*1) then d.*1 else d.*1 ++ [k].
Proof.
  induction d as [|[k' v'] d IH]; cbn; [done|].
  destruct (decide (k' = k)) as [->|Hne]; cbn.
  - rewrite decide_True; [done|]. by apply elem_of_cons; left.
  - rewrite IH. destruct (decide (k ∈ d.*1)) as [Hin|Hnin].
    + rewrite decide_True; [done|]. by apply elem_of_cons; right.
    + rewrite decide_False; [done|].
      intros Hin. apply elem_of_cons in Hin as [?|?]; done.
Qed.

Lemma dict_setitem_values {V} (d : list (string * V)) k v (P : V → Prop) :
  P v → Forall (λ x, P x.2) d → Forall (λ x, P x.2) (dict_setitem d k v).
Proof.
  intros Hv. induction 1 as [|[k' v'] d Hx Hd IH]; cbn.
  - by repeat constructor.
  - destruct (decide (k' = k)); constructor; done.
Qed.

Lemma main_config_invariant (host : string) (port ca_version : Z)
    (pvs : list string) (d : list (string * (Address * Z))) :
  NoDup d.*1 →
  Forall (λ x, x.2 = ((host, port) : Address, ca_version)) d →
  let c := foldl (λ d k, dict_setitem d k ((host, port), ca_version)) d pvs in
  NoDup c.*1 ∧
  (∀ k, k ∈ c.*1 ↔ k ∈ d.*1 ∨ k ∈ pvs) ∧
  Forall (λ x, x.2 = ((host, port) : Address, ca_version)) c.
Proof.
  cbn zeta. revert d. induction pvs as [|k pvs IH]; intros d Hnd Hall; cbn.
  - split; [done|]. split; [|done]. intros k. split; [by left|].
    intros [?|Hk]; [done|]. by apply elem_of_nil in Hk.
  - destruct (IH (dict_setitem d k ((host, port), ca_version))) as (Hnd' & Hmem & Hall').
    + rewrite dict_setitem_keys. destruct (decide (k ∈ d.*1)); [done|].
      apply NoDup_app. split; [done|]. split; [|apply NoDup_singleton].
      intros x Hx Hx'. apply list_elem_of_singleton in Hx'. by subst.
    + by apply (dict_setitem_values d k _
                  (λ v, v = ((host, port) : Address, ca_version))).
    + split; [done|]. split; [|done].
      intros k'. rewrite Hmem, dict_setitem_keys.
      destruct (decide (k ∈ d.*1)) as [Hin|Hnin].
      * rewrite elem_of_cons. split; [tauto|]. intros [?|[->|?]]; tauto.
      * rewrite elem_of_app, list_elem_of_singleton, elem_of_cons. tauto.
Qed.

(** X15.  The configuration of the main program has each name once,
    has exactly the names given on the command line, and gives every
    name the one address and the one protocol version of the command
    line. *)
Theorem main_config_entries host port ca_version pvs :
  let c := main_config host port ca_version pvs in
  NoDup c.*1 ∧
  (∀ k, k ∈ c.*1 ↔ k ∈ pvs) ∧
  (∀ k v, (k, v) ∈ c → v = ((host, port), ca_version)).
Proof.
  cbn zeta. unfold main_config.
  destruct (main_config_invariant host port ca_version pvs [])
    as (Hnd & Hmem & Hall); [apply NoDup_nil_2|apply Forall_nil_2|].
  split; [done|]. split.
  - intros k. rewrite Hmem. split; [|by right].
    intros [Hk|?]; [|done]. by apply elem_of_nil in Hk.
  - intros k v Hkv. rewrite Forall_forall in Hall. apply (Hall (k, v) Hkv).
Qed.

Lemma preload_uniform (items : list (string * (Address * Z))) addr ver b :
  items ≠ [] →
  Forall (λ x, x.2 = (addr, ver)) items →
  server_protocol_versions (PreloadedContext_init (Some items) b) !! addr = Some ver.
Proof.
  intros Hne Hall. destruct items as [|x items _] using rev_ind; [done|].
  rewrite Forall_app, Forall_singleton in Hall. destruct Hall as [_ Hx].
  destruct x as [name [a v]]. cbn in Hx. injection Hx as -> ->.
  apply preload_versions_last. cbn. apply not_elem_of_nil.
Qed.

(** X16.  The client context of the main program: with no PV given
    the versions are untouched; otherwise they change at the address of
    the command line only, which gets the version of the command line;
    every configured name is marked found at that address. *)
Theorem main_context_knows_one_server host port ca_version pvs b :
  let b' := client_context (main_config host port ca_version pvs) b in
  server_protocol_versions b' =
    match pvs with
    | [] => server_protocol_versions b
    | _ :: _ => <[(host, port) := ca_version]> (server_protocol_versions b)
    end ∧
  marked_found b' =
    marked_found b ++
      ((λ k, (k, (host, port))) <$> (main_config host port ca_version pvs).*1).
Proof.
  cbn zeta. unfold client_context.
  destruct (main_config_invariant host port ca_version pvs [])
    as (_ & Hmem & Hall); [apply NoDup_nil_2|apply Forall_nil_2|].
  fold (main_config host port ca_version pvs) in Hmem, Hall.
  split.
  - destruct pvs as [|k pvs]; [done|].
    apply map_eq. intros addr.
    destruct (decide (addr = (host, port))) as [->|Hne].
    + rewrite lookup_insert_eq. apply preload_uniform; [|done].
      intros Hnil. assert (k ∈ (main_config host port ca_version (k :: pvs)).*1) as Hk.
      { apply Hmem. right. by apply elem_of_cons; left. }
      rewrite Hnil in Hk. by apply elem_of_nil in Hk.
    + rewrite lookup_insert_ne by done. apply preload_versions_other.
      intros Hin. apply list_elem_of_fmap in Hin as ([name [a v]] & Ha & Hx).
      rewrite Forall_forall in Hall. specialize (Hall _ Hx). cbn in *.
      injection Hall as -> ->. done.
  - rewrite preload_marked. f_equal.
    rewrite <- list_fmap_compose. apply Forall_fmap_ext_1.
    eapply Forall_impl; [exact Hall|].
    intros [name [a v]] Hx. cbn in *. by injection Hx as -> ->.
Qed.

Section MainExtras.

Variable lib : Library.
Variable rem : Remote.

(** X17.  The main program never forces read-only: every property of
    its class belongs to a name of the command line, was resolved at the
    address of the command line, and is read-only exactly when the
    rights the server granted lack the WRITE bit. *)
Theorem main_mirror_read_only_iff_not_writable host port ca_version pvs w ns k p :
  (main_mirror lib rem host port ca_version pvs w).1 = Ok ns →
  ns !! k = Some (AProp p) →
  k ∈ pvs ∧
  prop_pv_str p = k ∧
  remote_connect rem k (host, port) =
    Created (prop_dtype p) (prop_max_length p) (access_rights (prop_chan p)) ∧
  prop_read_only p = negb (Z.testbit (access_rights (prop_chan p)) 1).
Proof.
  unfold main_mirror. intros Hok Hk.
  destruct (make_mirror_ok lib rem _ _ _ _ Hok) as (Hconfig & Hout & Hin).
  destruct (main_config_invariant host port ca_version pvs [])
    as (_ & Hmem & Hall); [apply NoDup_nil_2|apply Forall_nil_2|].
  fold (main_config host port ca_version pvs) in Hmem, Hall.
  destruct (decide (k = "config"%string)) as [->|Hne]; [congruence|].
  destruct (decide (k ∈ (main_config host port ca_version pvs).*1)) as [Hkin|Hknin];
    [|rewrite (Hout k Hne Hknin) in Hk; done].
  destruct (Hin k Hne Hkin) as (p' & [addr ver] & w0 & w1 & Hl & Hname & Hmemb & Hp).
  rewrite Hk in Hl. injection Hl as <-.
  rewrite Forall_forall in Hall. specialize (Hall _ Hmemb). cbn in Hall.
  injection Hall as -> ->.
  destruct (make_pvproperty_ok lib rem _ _ _ _ _ _ _ Hp)
    as (chan & w2 & resp & Hchan & _ & _ & Hd & Hm & Hro & _ & Hpc & _).
  destruct (make_channel_from_address_ok rem _ _ _ _ _ _ _ Hchan)
    as (dtype & count & rights & Hconn & _ & Hdt & Hcount & Hrights & _).
  split.
  - apply Hmem in Hkin as [Hnil|?]; [|done]. by apply elem_of_nil in Hnil.
  - split; [done|]. split.
    + by rewrite Hconn, Hd, Hm, Hpc, Hdt, Hcount, Hrights.
    + by rewrite Hro, Hpc, flag_in_WRITE.
Qed.
End MainExtras.

Open Scope string_scope.

(** * The claims on the example deployment *)

(** The update of [gauge] (2.71 at t = 100) asks nothing of the remote,
    and a putter that sees the guard returns the label it was given. *)
Lemma callback_triggers_no_remote_write_witness :
  remote_writes
    (_callback example_lib example_remote 0 gauge_prop example_subscription
       example_update started_world).2 = [] ∧
  putter example_lib example_remote "switch" (prop_chan switch_prop) 0 switch_prop
    (PStr "ON") (set_internal_process <[0%nat := true]> started_world) =
    (Ok (PStr "ON"), set_internal_process <[0%nat := true]> started_world).
Proof.
  destruct (callback_triggers_no_remote_write example_lib example_remote 0
              gauge_prop example_subscription example_update started_world)
    as (_ & Hputter & Hwrites).
  split.
  - rewrite Hwrites. vm_compute. reflexivity.
  - apply Hputter. vm_compute. reflexivity.
Defined.

(** A client writes the label ON to [switch]: the remote PV is asked to
    write the code 1, the putter raises [SkipWrite], the store is
    untouched. *)
Lemma client_write_forwards_and_skips_witness :
  guard_of 0 started_world = false ∧
  remote_writes
    (putter example_lib example_remote "switch" (prop_chan switch_prop) 0 switch_prop
       (PStr "ON") started_world).2 = [("switch", PInt 1, 500)] ∧
  (putter example_lib example_remote "switch" (prop_chan switch_prop) 0 switch_prop
     (PStr "ON") started_world).1 = Raise SkipWrite ∧
  store (inst_write example_lib example_remote 0 switch_prop (PStr "ON") None
           started_world).2 = store started_world.
Proof.
  assert (guard_of 0 started_world = false) as Hg by (vm_compute; reflexivity).
  destruct (client_write_forwards_and_skips example_lib example_remote 0 switch_prop
              (PStr "ON") None started_world Hg) as (Hfwd & _ & Hstore).
  destruct (Hfwd (mkPV "switch") (PInt 1)) as (Hlog & Hack).
  { vm_compute. reflexivity. }
  { vm_compute. reflexivity. }
  destruct Hack as [Hskip _]. { vm_compute. reflexivity. }
  split; [exact Hg|]. split; [exact Hlog|]. split; [exact Hskip|exact Hstore].
Defined.

(** An update of [gauge] with more elements than the PV holds is
    rejected by the runtime: the callback fails and the guard is clear. *)
Lemma callback_releases_guard_witness :
  internal_process
    (_callback example_lib example_remote 0 gauge_prop example_subscription
       (mkResponse (PArr [1; 2]) (mkMetadata 100 None)) started_world).2 !! 0%nat
    = Some false ∧
  (_callback example_lib example_remote 0 gauge_prop example_subscription
     (mkResponse (PArr [1; 2]) (mkMetadata 100 None)) started_world).1
    = Raise ValueError.
Proof.
  destruct (callback_releases_guard example_lib example_remote 0 gauge_prop
              example_subscription (mkResponse (PArr [1; 2]) (mkMetadata 100 None))
              started_world) as (_ & Hclear & Hfail).
  split; [exact Hclear|].
  destruct (Hfail ValueError) as [Hraise _]; [vm_compute; reflexivity|exact Hraise].
Defined.

(** A write to [slow] times out: the client's write fails with the
    timeout and the store is untouched. *)
Lemma failed_remote_write_surfaces_witness :
  remote_write example_remote (remote_writes started_world) "slow" (PArr [5])
    = WriteTimesOut ∧
  (inst_write example_lib example_remote 0 slow_prop (PArr [5]) None started_world).1
    = Raise TimeoutError ∧
  store (inst_write example_lib example_remote 0 slow_prop (PArr [5]) None
           started_world).2 = store started_world.
Proof.
  assert (remote_write example_remote (remote_writes started_world) "slow" (PArr [5])
            = WriteTimesOut) as Hout by (vm_compute; reflexivity).
  destruct (failed_remote_write_surfaces example_lib example_remote 0 slow_prop
              (PArr [5]) None started_world (mkPV "slow") (PArr [5]))
    as (Htimeout & _ & Hstore); try (vm_compute; reflexivity).
  split; [exact Hout|]. split; [exact (Htimeout Hout)|exact Hstore].
Defined.

(** [gauge] grants read access only: its property is read-only. *)
Lemma read_only_iff_forced_or_not_writable_witness :
  make_pvproperty example_lib example_remote "gauge" (example_address, 13) false
    empty_world =
    (Ok gauge_prop,
     (make_pvproperty example_lib example_remote "gauge" (example_address, 13) false
        empty_world).2) ∧
  ∃ dtype count rights,
    remote_connect example_remote "gauge" example_address = Created dtype count rights ∧
    access_rights (prop_chan gauge_prop) = rights ∧
    (prop_read_only gauge_prop = true ↔ false = true ∨ Z.testbit rights 1 = false).
Proof.
  assert (make_pvproperty example_lib example_remote "gauge" (example_address, 13)
            false empty_world =
          (Ok gauge_prop,
           (make_pvproperty example_lib example_remote "gauge" (example_address, 13)
              false empty_world).2)) as Hp by (vm_compute; reflexivity).
  split; [exact Hp|].
  exact (read_only_iff_forced_or_not_writable example_lib example_remote _ _ _ _ _ _ _ Hp).
Defined.

(** The scenario of the specification: the update (2.71, t = 100) is in
    the store with its own timestamp, not with the local time 1000. *)
Lemma callback_preserves_timestamp_witness :
  store
    (_callback example_lib example_remote 0 gauge_prop example_subscription
       example_update started_world).2 !! "gauge" = Some (PArr [271], 100).
Proof.
  destruct (callback_preserves_timestamp example_lib example_remote 0 gauge_prop
              example_subscription example_update started_world) as (_ & _ & Hstore).
  apply Hstore. vm_compute. reflexivity.
Defined.

(** [switch] is enumerated: its property carries OFF and ON, and the
    label ON goes out as 1. *)
Lemma enum_labels_decoded_and_written_raw_witness :
  make_pvproperty example_lib example_remote "switch" (example_address, 13) false
    empty_world =
    (Ok switch_prop,
     (make_pvproperty example_lib example_remote "switch" (example_address, 13) false
        empty_world).2) ∧
  remote_writes
    (putter example_lib example_remote "switch" (prop_chan switch_prop) 0 switch_prop
       (PStr "ON") started_world).2 = [("switch", PInt 1, 500)].
Proof.
  assert (make_pvproperty example_lib example_remote "switch" (example_address, 13)
            false empty_world =
          (Ok switch_prop,
           (make_pvproperty example_lib example_remote "switch" (example_address, 13)
              false empty_world).2)) as Hp by (vm_compute; reflexivity).
  split; [exact Hp|].
  destruct (enum_labels_decoded_and_written_raw example_lib example_remote _ _ _ _ _ _ _ Hp)
    as [_ Henum].
  destruct Henum as (resp & ks & labels & _ & _ & _ & Hlabels & Hwrite).
  { vm_compute. reflexivity. }
  injection Hlabels as <-.
  apply (Hwrite 0%nat "ON" 1%nat (mkPV "switch") started_world).
  - vm_compute. reflexivity.
  - vm_compute. reflexivity.
  - reflexivity.
  - intros [|j] Hj; [discriminate|lia].
Defined.

(** The resolution of [slow] fails at its read; the caches are empty all
    the same, and nothing of the resolver's is left open or connected. *)
Lemma make_mirror_releases_connections_witness :
  (make_mirror example_lib example_remote example_config false busy_world).1
    = Raise ReadError ∧
  csc_sockets (make_mirror example_lib example_remote example_config false busy_world).2
    = ∅ ∧
  csc_global_circuits
    (make_mirror example_lib example_remote example_config false busy_world).2 = ∅ ∧
  open_sockets (make_mirror example_lib example_remote example_config false busy_world).2
    ⊆ open_sockets busy_world.
Proof.
  destruct (make_mirror_releases_connections example_lib example_remote example_config
              false busy_world) as (Hsock & Hcirc & Hopen & _).
  split; [vm_compute; reflexivity|]. split; [exact Hsock|]. split; [exact Hcirc|exact Hopen].
Defined.

(** In that run the three channels of the resolver were cleared, the
    channel and the socket of the process itself are as they were. *)
Example make_mirror_example_channels :
  let w' := (make_mirror example_lib example_remote example_config false busy_world).2 in
  (chan_states w' !! 12%nat, chan_states w' !! 13%nat, chan_states w' !! 14%nat,
   chan_states w' !! 7%nat) =
    (Some MUST_CLOSE, Some MUST_CLOSE, Some MUST_CLOSE, Some CONNECTED) ∧
  elements (open_sockets w') = [9%nat] ∧
  sent w' = [(10%nat, ClearChannelRequest "switch" 12);
             (10%nat, ClearChannelRequest "gauge" 13);
             (10%nat, ClearChannelRequest "slow" 14)].
Proof. vm_compute. repeat split; reflexivity. Qed.

(** The callback task sets its guard, the two clients write, the
    callback task stores and clears: both clients saw the guard clear. *)
Lemma guard_scoped_per_context_witness :
  Forall (handler_ok example_lib example_remote)
    (run example_lib example_remote [0; 1; 2; 0; 0]%nat (task_prog <$> example_tasks)
       started_world).1.
Proof.
  apply (guard_scoped_per_context example_lib example_remote example_tasks).
  intros i Hi. reflexivity.
Defined.

(** The same run, event by event: context and guard seen.  When the
    clients wrote, the guard of context 0 was set. *)
Example interleaved_run_events :
  map (λ ev, (ev_ctx ev, ev_guard ev))
    (run example_lib example_remote [0; 1; 2; 0; 0]%nat (task_prog <$> example_tasks)
       started_world).1
  = [(0, false); (1, false); (2, false); (0, true); (0, true)]%nat ∧
  guard_of 0
    (run example_lib example_remote [0; 1; 2]%nat (task_prog <$> example_tasks)
       started_world).2 = true ∧
  remote_writes
    (run example_lib example_remote [0; 1; 2; 0; 0]%nat (task_prog <$> example_tasks)
       started_world).2 = [("switch", PInt 1, 500); ("slow", PArr [5], 500)].
Proof. vm_compute. repeat split; reflexivity. Qed.

(** The guard is the context's: a write handler that ran in the very
    context of a callback, between its set and its clear, would see the
    guard set.  The tasks of the event loop never do. *)
Example guard_shared_inside_one_context :
  map (λ ev, (ev_ctx ev, ev_guard ev))
    (run example_lib example_remote [0; 0]%nat
       [[ISetGuard true; IClientWrite switch_prop (PStr "ON")]] started_world).1
  = [(0, false); (0, true)]%nat.
Proof. vm_compute. reflexivity. Qed.

(** With the guard set the label ON comes back as it is and nothing is
    sent; with the guard clear it goes out as 1. *)
Lemma putter_guard_set_keeps_value_witness :
  guard_of 0 (set_internal_process <[0%nat := true]> started_world) = true ∧
  putter example_lib example_remote "switch" (prop_chan switch_prop) 0 switch_prop
    (PStr "ON") (set_internal_process <[0%nat := true]> started_world) =
    (Ok (PStr "ON"), set_internal_process <[0%nat := true]> started_world) ∧
  remote_writes
    (putter example_lib example_remote "switch" (prop_chan switch_prop) 0 switch_prop
       (PStr "ON") started_world).2 = [("switch", PInt 1, 500)].
Proof.
  assert (guard_of 0 (set_internal_process <[0%nat := true]> started_world) = true)
    as Hg by (vm_compute; reflexivity).
  destruct (putter_guard_set_keeps_value example_lib example_remote "switch"
              (prop_chan switch_prop) 0 switch_prop (PStr "ON") None _ Hg)
    as (Hret & _ & Hclear).
  split; [exact Hg|]. split; [exact Hret|].
  apply (Hclear "ON" ["OFF"; "ON"] 1%nat (mkPV "switch") started_world);
    vm_compute; reflexivity.
Defined.

(** * The further properties on the example deployment *)

(** The frame is constructed anew and a client writes [switch] before
    any startup hook has run. *)
Lemma write_before_startup_raises_KeyError_witness :
  inst_write example_lib example_remote 0 switch_prop (PStr "ON") None
    (MirrorFrame_init started_world).2 =
    (Raise (KeyError "switch"), (MirrorFrame_init started_world).2).
Proof.
  apply (write_before_startup_raises_KeyError example_lib example_remote 0
           switch_prop (PStr "ON") None started_world);
    vm_compute; reflexivity.
Defined.

(** HALF is no label of [switch]: the write fails and nothing is sent. *)
Lemma putter_failed_conversion_sends_nothing_witness :
  putter example_lib example_remote "switch" (prop_chan switch_prop) 0 switch_prop
    (PStr "HALF") started_world = (Raise ValueError, started_world).
Proof.
  apply (putter_failed_conversion_sends_nothing example_lib example_remote "switch"
           (prop_chan switch_prop) 0 switch_prop (PStr "HALF") (mkPV "switch"));
    vm_compute; reflexivity.
Defined.

(** From the empty world: the startup hook of [slow], then a write. *)
Lemma startup_then_write_forwards_witness :
  remote_writes
    (putter example_lib example_remote "slow" (prop_chan slow_prop) 0 slow_prop
       (PArr [5]) (startup "slow" slow_prop empty_world).2).2 =
    [("slow", PArr [5], 500)].
Proof.
  apply (startup_then_write_forwards example_lib example_remote 0 slow_prop
           (PArr [5]) (PArr [5]) empty_world);
    vm_compute; reflexivity.
Defined.

(** A frame that serves [switch] and [slow] knows no [gauge]. *)
Lemma started_frame_serves_exactly_its_props_witness :
  (putter example_lib example_remote "gauge" (prop_chan gauge_prop) 0 gauge_prop
     (PArr [5])
     (run_startup_hooks [switch_prop; slow_prop] (MirrorFrame_init empty_world).2).2).1
    = Raise (KeyError "gauge").
Proof.
  apply (started_frame_serves_exactly_its_props example_lib example_remote
           [switch_prop; slow_prop] 0 "gauge" (prop_chan gauge_prop) gauge_prop
           (PArr [5]) empty_world).
  - vm_compute. reflexivity.
  - apply (bool_decide_unpack _). vm_compute. exact I.
Defined.

(** A client writes ON to [switch]; the update with the code 1 and the
    timestamp 101 follows. *)
Lemma write_then_update_echoes_witness :
  store
    (_callback example_lib example_remote 1 switch_prop example_subscription
       switch_update
       (inst_write example_lib example_remote 0 switch_prop (PStr "ON") None
          started_world).2).2 !! "switch" = Some (PInt 1, 101) ∧
  remote_writes
    (_callback example_lib example_remote 1 switch_prop example_subscription
       switch_update
       (inst_write example_lib example_remote 0 switch_prop (PStr "ON") None
          started_world).2).2 = [("switch", PInt 1, 500)].
Proof.
  destruct (write_then_update_echoes example_lib example_remote 0 1 switch_prop
              (PStr "ON") example_subscription switch_update started_world
              (mkPV "switch") (PInt 1)) as (_ & _ & Hstore & Hwrites);
    try (vm_compute; reflexivity).
  split; [exact Hstore|exact Hwrites].
Defined.

(** A server that has a PV named [config]: the class keeps the
    configuration under that name and the property of [gauge]. *)
Lemma make_mirror_class_attributes_witness :
  (make_mirror example_lib generous_remote shadow_config false empty_world).1 =
    Ok (<["config" := AConfig shadow_config]>
          (<["gauge" := AProp (mkPvProperty (PArr [0]) 6 1 false None "gauge"
                                 (mkChannel 3 "gauge" 0 6 1 3 "latin-1"))]> ∅)) ∧
  (<["config" := AConfig shadow_config]>
     (<["gauge" := AProp (mkPvProperty (PArr [0]) 6 1 false None "gauge"
                            (mkChannel 3 "gauge" 0 6 1 3 "latin-1"))]> ∅
      : gmap string Attr)) !! "config" = Some (AConfig shadow_config).
Proof.
  assert ((make_mirror example_lib generous_remote shadow_config false empty_world).1 =
    Ok (<["config" := AConfig shadow_config]>
          (<["gauge" := AProp (mkPvProperty (PArr [0]) 6 1 false None "gauge"
                                 (mkChannel 3 "gauge" 0 6 1 3 "latin-1"))]> ∅)))
    as Hok by (vm_compute; reflexivity).
  split; [exact Hok|].
  exact (proj1 (make_mirror_class_attributes example_lib generous_remote _ _ _ _ Hok)).
Defined.

(** [switch] and [gauge] resolve, [slow] fails at its read, and a fourth
    entry is never looked at. *)
Lemma make_mirror_fails_fast_witness :
  (make_mirror example_lib example_remote
     ([("switch", (example_address, 13)); ("gauge", (example_address, 13))] ++
      ("slow", (example_address, 13)) :: [("late", (example_address, 13))])
     false empty_world).1 = Raise ReadError.
Proof.
  refine (proj1 (make_mirror_fails_fast example_lib example_remote
            [("switch", (example_address, 13)); ("gauge", (example_address, 13))]
            "slow" (example_address, 13) [("late", (example_address, 13))] false
            empty_world
            (match (make_properties example_lib example_remote
                      [("switch", (example_address, 13)); ("gauge", (example_address, 13))]
                      false ∅ empty_world).1 with
             | Ok ns => ns
             | Raise _ => ∅
             end)
            (make_properties example_lib example_remote
               [("switch", (example_address, 13)); ("gauge", (example_address, 13))]
               false ∅ empty_world).2
            ReadError
            (make_pvproperty example_lib example_remote "slow" (example_address, 13)
               false
               (make_properties example_lib example_remote
                  [("switch", (example_address, 13)); ("gauge", (example_address, 13))]
                  false ∅ empty_world).2).2
            _ _)); vm_compute; reflexivity.
Defined.

(** The example configuration under version 13 and under version 11. *)
Lemma resolution_ignores_protocol_version_witness :
  (make_mirror example_lib example_remote example_config false empty_world).2 =
  (make_mirror example_lib example_remote
     [("switch", (example_address, 11)); ("gauge", (example_address, 11));
      ("slow", (example_address, 11))] false empty_world).2.
Proof.
  refine (proj1 (resolution_ignores_protocol_version example_lib example_remote
                   example_config
                   [("switch", (example_address, 11)); ("gauge", (example_address, 11));
                    ("slow", (example_address, 11))] false empty_world _)).
  reflexivity.
Defined.

(** [gauge]: a floating-point value of one element, 3.14 at the read. *)
Lemma make_pvproperty_copies_the_descriptor_witness :
  ∃ dtype count rights resp,
    remote_connect example_remote "gauge" example_address = Created dtype count rights ∧
    remote_read example_remote "gauge" (field_types_control example_lib dtype)
      = ReadOk resp ∧
    prop_value gauge_prop = resp_data resp ∧
    prop_dtype gauge_prop = dtype ∧
    prop_max_length gauge_prop = count ∧
    prop_pv_str gauge_prop = "gauge" ∧
    chan_name (prop_chan gauge_prop) = "gauge".
Proof.
  apply (make_pvproperty_copies_the_descriptor example_lib example_remote "gauge"
           example_address 13 false empty_world gauge_prop
           (make_pvproperty example_lib example_remote "gauge" (example_address, 13)
              false empty_world).2).
  vm_compute. reflexivity.
Defined.

(** The main program for [switch gauge switch]: [gauge] is read-only. *)
Lemma main_mirror_read_only_iff_not_writable_witness :
  "gauge" ∈ ["switch"; "gauge"; "switch"] ∧
  prop_read_only
    (mkPvProperty (PArr [314]) 6 1 true None "gauge"
       (mkChannel 3 "gauge" 0 6 1 1 "latin-1")) = negb (Z.testbit 1 1).
Proof.
  destruct (main_mirror_read_only_iff_not_writable example_lib example_remote
              "10.0.0.5" 5064 13 ["switch"; "gauge"; "switch"] empty_world
              (match (main_mirror example_lib example_remote "10.0.0.5" 5064 13
                        ["switch"; "gauge"; "switch"] empty_world).1 with
               | Ok ns => ns
               | Raise _ => ∅
               end)
              "gauge"
              (mkPvProperty (PArr [314]) 6 1 true None "gauge"
                 (mkChannel 3 "gauge" 0 6 1 1 "latin-1")))
    as (Hin & _ & _ & Hro); try (vm_compute; reflexivity).
  split; [exact Hin|exact Hro].
Defined.

(** A name given twice is configured once, at its first place. *)
Example main_config_example :
  main_config "10.0.0.5" 5064 13 ["switch"; "gauge"; "switch"] =
    [("switch", (("10.0.0.5", 5064), 13)); ("gauge", (("10.0.0.5", 5064), 13))].
Proof. reflexivity. Qed.
